(** * Weather advisor service: the request orchestrator

    A shallow embedding of the [advisor] package (its two source variants)
    and the properties of its unary path [getAdvice] and its streaming path
    [StreamAdvice].

    The collaborators the package calls but does not implement (the HTTP
    client behind the geocoder, the weather service, the generative model,
    the gRPC stream and the Prometheus metrics) are an interface over an
    abstract world; every call to one of them is also logged as an event,
    so that "the generator is never called" or "exactly one outcome is
    counted" are statements about the log of a run. *)

From Stdlib Require Import String Ascii List ZArith Lia Bool DecimalString SpecFloat.
Import ListNotations.
Open Scope string_scope.

(** ** The Go library functions the package uses *)

Module GoLib.

(** A Go [error] is modelled by its message, the only thing the package
    ever reads from one ([%v] and [err.Error()]). *)
Definition error : Type := string.

(** Go's two-valued returns [(v, err)], of which exactly one is set. *)
Inductive result (A : Type) : Type :=
| Ok (a : A)
| Err (e : error).
Arguments Ok {A} a.
Arguments Err {A} e.

Definition is_err {A} (r : result A) : bool :=
  match r with Ok _ => false | Err _ => true end.

(** [strings.Join]. *)
Definition Join (elems : list string) (sep : string) : string :=
  String.concat sep elems.

(** [strings.Contains]. *)
Fixpoint Contains (s substr : string) : bool :=
  String.prefix substr s
  || match s with
     | EmptyString => false
     | String _ rest => Contains rest substr
     end.

(** Decimal rendering of an integer, as [%d] prints it. *)
Definition itoa (n : Z) : string := NilZero.string_of_int (Z.to_int n).

(** A [float64] is its IEEE 754 datum. *)
Definition float64 : Type := spec_float.

Definition round_half_even (num den : Z) : Z :=
  let q := (num / den)%Z in
  match (2 * (num mod den) ?= den)%Z with
  | Lt => q
  | Gt => (q + 1)%Z
  | Eq => if Z.even q then q else (q + 1)%Z
  end.

(** The magnitude [m * 2^e] in tenths, rounded to nearest, ties to even:
    the digits [strconv] keeps for the ['f'] format with precision 1. *)
Definition tenths (m : positive) (e : Z) : Z :=
  if (0 <=? e)%Z then (Z.pos m * 2 ^ e * 10)%Z
  else round_half_even (Z.pos m * 10) (2 ^ (- e)).

(** [%.1f]. *)
Definition format_f1 (f : float64) : string :=
  match f with
  | S754_nan => "NaN"
  | S754_infinity s => if s then "-Inf" else "+Inf"
  | S754_zero s => (if s then "-" else "") ++ "0.0"
  | S754_finite s m e =>
      let n := tenths m e in
      (if s then "-" else "") ++ itoa (n / 10) ++ "." ++ itoa (n mod 10)
  end.

(** The operands of a [fmt.Sprintf] / [fmt.Errorf] call. *)
Inductive arg : Type :=
| AString (s : string)
| AInt (n : Z)
| AFloat (f : float64)
| AError (e : error).

Definition bad_verb : string := "%!(BADVERB)".

(** [fmt.Sprintf], for the verbs the package uses: [%s], [%d], [%v],
    [%.1f] and [%%]. Every other byte of the format is copied. A verb
    that does not fit its operand, which no call of the package has,
    is rendered as [bad_verb]. *)
Fixpoint Sprintf (format : string) (args : list arg) {struct format} : string :=
  match format with
  | EmptyString => EmptyString
  | String c rest =>
      if negb (Ascii.eqb c "%") then String c (Sprintf rest args)
      else
        match rest with
        | EmptyString => bad_verb
        | String v rest1 =>
            if Ascii.eqb v "%" then String "%" (Sprintf rest1 args)
            else if Ascii.eqb v "s" then
              match args with
              | AString s :: args' => s ++ Sprintf rest1 args'
              | _ => bad_verb
              end
            else if Ascii.eqb v "d" then
              match args with
              | AInt n :: args' => itoa n ++ Sprintf rest1 args'
              | _ => bad_verb
              end
            else if Ascii.eqb v "v" then
              match args with
              | AError e :: args' => e ++ Sprintf rest1 args'
              | AString s :: args' => s ++ Sprintf rest1 args'
              | AInt n :: args' => itoa n ++ Sprintf rest1 args'
              | _ => bad_verb
              end
            else if Ascii.eqb v "." then
              match rest1 with
              | String p (String f rest2) =>
                  if Ascii.eqb p "1" && Ascii.eqb f "f" then
                    match args with
                    | AFloat x :: args' => format_f1 x ++ Sprintf rest2 args'
                    | _ => bad_verb
                    end
                  else bad_verb
              | _ => bad_verb
              end
            else bad_verb
        end
  end.

(** [fmt.Errorf]: the error whose message is the formatted string. *)
Definition Errorf (format : string) (args : list arg) : error :=
  Sprintf format args.

Definition hex_digit (n : N) : ascii :=
  if (n <? 10)%N then ascii_of_N (48 + n) else ascii_of_N (55 + n).

(** [url.shouldEscape] in the query-component mode. *)
Definition shouldEscape (c : ascii) : bool :=
  let n := N_of_ascii c in
  if ((97 <=? n) && (n <=? 122) || (65 <=? n) && (n <=? 90)
      || (48 <=? n) && (n <=? 57))%N then false
  else if Ascii.eqb c "-" || Ascii.eqb c "_" || Ascii.eqb c "."
          || Ascii.eqb c "~" then false
  else true.

(** [url.QueryEscape]. *)
Fixpoint QueryEscape (s : string) : string :=
  match s with
  | EmptyString => EmptyString
  | String c rest =>
      if Ascii.eqb c " " then String "+" (QueryEscape rest)
      else if shouldEscape c then
        let n := N_of_ascii c in
        String "%" (String (hex_digit (n / 16)) (String (hex_digit (n mod 16))
          (QueryEscape rest)))
      else String c (QueryEscape rest)
  end.

(** The line feed, Go's ["\n"]. *)
Definition newline : string := String "010" EmptyString.

(** The two bytes of the UTF-8 encoding of the degree sign (U+00B0). *)
Definition degree : string := String "194" (String "176" EmptyString).

(** The four bytes the second source variant has in its place: the
    UTF-8 encodings of U+00C2 and U+00B0. *)
Definition degree_twice_encoded : string :=
  String "195" (String "130" (String "194" (String "176" EmptyString))).

End GoLib.
Import GoLib.

(** ** Messages, collaborators and runs *)

Module Model.

(** *** The protocol messages ([advisorpb], [weatherpb])

    The generated message types, with the fields the package reads or
    sets. *)

Record CityData := { Location : string }.
Record AdvisorRequest := { Cities : list CityData }.
Record AdvisorResponse := { Advice : string }.
Record StreamAdviceResponse := { Chunk : string; IsComplete : bool }.

Record WeatherRequest := { Latitude : float64; Longitude : float64 }.
Record WeatherResponse := {
  Temperature : float64;
  Description : string;
  Humidity : Z;
  WindSpeed : float64
}.

(** *** The geocoder's reply

    The element of [geoCodeResponse.Results]; its fields carry a prefix
    here, [Latitude] and [Longitude] being fields of [WeatherRequest]
    too. *)

Record geoCodeResult := {
  geo_Name : string;
  geo_Latitude : float64;
  geo_Longitude : float64;
  geo_Country : string;
  geo_Admin1 : string
}.
Record geoCodeResponse := { Results : list geoCodeResult }.

(** An [http.Response], with its body given by what decoding it as a
    [geoCodeResponse] yields. *)
Record HttpResponse := {
  StatusCode : Z;
  Status : string;
  Body : result geoCodeResponse
}.

Definition StatusOK : Z := 200.

(** *** The generative model's replies ([genai])

    A part is a [genai.Text] or of another kind; a candidate has a
    content, which has parts. *)

Inductive Part : Type :=
| Text (text : string)
| Blob (mime data : string)
| FunctionCall (name : string).

Record genaiContent := { Parts : list Part }.
Record Candidate := { Content : genaiContent }.
Record GenerateContentResponse := { Candidates : list Candidate }.

(** A [GenerateContentResponseIterator]: the responses [Next] has still
    to hand out, and the error it returns once they are exhausted. The
    sequence is finite. *)
Record GenerateContentResponseIterator := {
  pending : list GenerateContentResponse;
  stop : error
}.

(** *** What a run does to the outside *)

Inductive Event : Type :=
| EvHttpGet (url : string)
| EvGetCurrentWeather (req : WeatherRequest)
| EvGenerateContent (model prompt : string)
| EvGenerateContentStream (model prompt : string)
| EvSend (msg : StreamAdviceResponse)
| EvInc (status : string)
| EvObserveDuration.

(** The collaborators, over a world [W] that each call may change. *)
Class Collaborators (W : Type) := {
  httpGet : string -> W -> result HttpResponse * W;
  GetCurrentWeather : WeatherRequest -> W -> result WeatherResponse * W;
  GenerateContent : string -> string -> W -> result GenerateContentResponse * W;
  GenerateContentStream : string -> string -> W -> GenerateContentResponseIterator * W;
  Send : StreamAdviceResponse -> W -> option error * W
}.

(** The outcome of running a computation: its value, the events it
    caused, in order, and the world it leaves. *)
Record Run (W A : Type) := mkRun {
  value : A;
  events : list Event;
  after : W
}.
Arguments mkRun {W A} value events after.
Arguments value {W A} r.
Arguments events {W A} r.
Arguments after {W A} r.

Definition M (W A : Type) : Type := W -> Run W A.

Definition ret {W A} (a : A) : M W A := fun w => mkRun a [] w.

Definition bind {W A B} (m : M W A) (f : A -> M W B) : M W B :=
  fun w =>
    let r1 := m w in
    let r2 := f (value r1) (after r1) in
    mkRun (value r2) (events r1 ++ events r2) (after r2).

(** One call to a collaborator, logged. *)
Definition call {W A} (ev : Event) (f : W -> A * W) : M W A :=
  fun w => mkRun (fst (f w)) [ev] (snd (f w)).

(** An effect on the metrics, of which only the occurrence is kept. *)
Definition emit {W} (ev : Event) : M W unit := fun w => mkRun tt [ev] w.

(** [defer d] at the head of a function body. *)
Definition defer {W A} (d : M W unit) (body : M W A) : M W A :=
  bind body (fun r => bind d (fun _ => ret r)).

End Model.
Import Model.

Notation "x <- m ;; k" := (bind m (fun x => k))
  (at level 61, m at next level, right associativity).
Notation "m ;;; k" := (bind m (fun _ => k))
  (at level 61, right associativity).

(** ** The package, first variant *)

Module Advisor.
Section Service.

Context {W : Type} {svc : Collaborators W}.

(** [advisorRequests.WithLabelValues(status).Inc()] *)
Definition Inc (status : string) : M W unit := emit (EvInc status).

(** [timer.ObserveDuration()] *)
Definition ObserveDuration : M W unit := emit EvObserveDuration.

Definition geocodeCity (city : CityData) : M W (result (float64 * float64)) :=
  let encodedQuery := QueryEscape (Location city) in
  let url := Sprintf "https://nominatim.openstreetmap.org/search?q=%s&format=json&limit=1"
               [AString encodedQuery] in
  r <- call (EvHttpGet url) (httpGet url) ;;
  match r with
  | Err err => ret (Err (Errorf "geocoding failed: %v" [AError err]))
  | Ok resp =>
      if negb (StatusCode resp =? StatusOK)%Z then
        ret (Err (Errorf "geocoding failed: %s" [AString (Status resp)]))
      else
        match Body resp with
        | Err err => ret (Err (Errorf "JSON decoding failed: %v" [AError err]))
        | Ok geoResponse =>
            match Results geoResponse with
            | [] => ret (Err (Errorf "no results found for city: %s"
                                [AString (Location city)]))
            | first :: _ => ret (Ok (geo_Latitude first, geo_Longitude first))
            end
        end
  end.

(** The summary line of one city (the [weatherInfo] of both loops). *)
Definition weatherInfo (city : CityData) (weatherResp : WeatherResponse) : string :=
  Sprintf ("City: %s, Temp: %.1f" ++ degree ++ "C, Condition: %s, Humidity: %d%%, Wind: %.1f m/s")
    [AString (Location city); AFloat (Temperature weatherResp);
     AString (Description weatherResp); AInt (Humidity weatherResp);
     AFloat (WindSpeed weatherResp)].

Definition generateAdvice_prompt (weatherData : list string) : string :=
  Sprintf "Weather advisor. Based on this data provide practical advice: %s Include: summary, clothing advice, activity suggestions, places to visit if good weather, warnings. Keep it concise."
    [AString (Join weatherData (String "010" EmptyString))].

(** The text parts of a part list, in order ([advice.WriteString]). *)
Fixpoint writeTexts (parts : list Part) (advice : string) : string :=
  match parts with
  | [] => advice
  | Text text :: rest => writeTexts rest (advice ++ text)
  | _ :: rest => writeTexts rest advice
  end.

Definition generateAdvice (weatherData : list string) : M W (result string) :=
  let model := "gemini-2.5-flash" in
  let prompt := generateAdvice_prompt weatherData in
  r <- call (EvGenerateContent model prompt) (GenerateContent model prompt) ;;
  match r with
  | Err err => ret (Err (Errorf "gemini API failed: %v" [AError err]))
  | Ok resp =>
      match Candidates resp with
      | [] => ret (Err (Errorf "no response generated" []))
      | first :: _ => ret (Ok (writeTexts (Parts (Content first)) EmptyString))
      end
  end.

(** The loop of [getAdvice] over the cities still to visit; [Err] is its
    early return. *)
Fixpoint getAdvice_loop (cities : list CityData) (weatherData : list string)
  : M W (result (list string)) :=
  match cities with
  | [] => ret (Ok weatherData)
  | city :: rest =>
      g <- geocodeCity city ;;
      match g with
      | Err err =>
          Inc "error" ;;;
          ret (Err (Errorf "geocoding failed for %s: %v"
                      [AString (Location city); AError err]))
      | Ok (latitude, longitude) =>
          let weatherReq := {| Latitude := latitude; Longitude := longitude |} in
          r <- call (EvGetCurrentWeather weatherReq) (GetCurrentWeather weatherReq) ;;
          match r with
          | Err err =>
              Inc "error" ;;;
              ret (Err (Errorf "weather request failed for %s: %v"
                          [AString (Location city); AError err]))
          | Ok weatherResp =>
              getAdvice_loop rest (weatherData ++ [weatherInfo city weatherResp])
          end
      end
  end.

Definition getAdvice (advisorRequest : AdvisorRequest) : M W (result AdvisorResponse) :=
  defer ObserveDuration
    (l <- getAdvice_loop (Cities advisorRequest) [] ;;
     match l with
     | Err e => ret (Err e)
     | Ok weatherData =>
         a <- generateAdvice weatherData ;;
         match a with
         | Err err =>
             Inc "error" ;;;
             ret (Err (Errorf "advice generation failed: %v" [AError err]))
         | Ok advice =>
             Inc "success" ;;;
             ret (Ok {| Advice := advice |})
         end
     end).

(** [stream.Send] *)
Definition send (msg : StreamAdviceResponse) : M W (option error) :=
  call (EvSend msg) (Send msg).

Definition streamAdviceGeneration_prompt (weatherData : list string) : string :=
  Sprintf "Weather advisor. Based on this data provide practical advice: %s Include: summary, clothing advice, activity suggestions, warnings. Keep it concise."
    [AString (Join weatherData (String "010" EmptyString))].

(** The innermost loop of [streamAdviceGeneration], over the parts of
    one candidate; [Some] is its early return. *)
Fixpoint relay_parts (parts : list Part) : M W (option error) :=
  match parts with
  | [] => ret None
  | Text text :: rest =>
      e <- send {| Chunk := text; IsComplete := false |} ;;
      match e with
      | Some err => ret (Some (Errorf "failed to send chunk: %v" [AError err]))
      | None => relay_parts rest
      end
  | _ :: rest => relay_parts rest
  end.

(** The loop over the candidates of one response. *)
Fixpoint relay_candidates (cands : list Candidate) : M W (option error) :=
  match cands with
  | [] => ret None
  | cand :: rest =>
      e <- relay_parts (Parts (Content cand)) ;;
      match e with
      | Some err => ret (Some err)
      | None => relay_candidates rest
      end
  end.

(** The [for] loop of [streamAdviceGeneration]: each turn takes what
    [iter.Next()] returns, a pending response or, after the last one,
    the iterator's error. *)
Fixpoint relay (responses : list GenerateContentResponse) (err : error)
  : M W (option error) :=
  match responses with
  | [] =>
      if Contains err "EOF" || Contains err "iterator stopped" then
        send {| Chunk := EmptyString; IsComplete := true |}
      else ret (Some (Errorf "streaming failed: %v" [AError err]))
  | resp :: rest =>
      e <- relay_candidates (Candidates resp) ;;
      match e with
      | Some err' => ret (Some err')
      | None => relay rest err
      end
  end.

Definition streamAdviceGeneration (weatherData : list string) : M W (option error) :=
  let model := "gemini-2.5-pro" in
  let prompt := streamAdviceGeneration_prompt weatherData in
  iter <- call (EvGenerateContentStream model prompt)
            (GenerateContentStream model prompt) ;;
  relay (pending iter) (stop iter).

(** The loop of [StreamAdvice] over the cities; it has no early return. *)
Fixpoint StreamAdvice_loop (cities : list CityData)
    (weatherData failedCities : list string) : M W (list string * list string) :=
  match cities with
  | [] => ret (weatherData, failedCities)
  | city :: rest =>
      g <- geocodeCity city ;;
      match g with
      | Err _ => StreamAdvice_loop rest weatherData (failedCities ++ [Location city])
      | Ok (latitude, longitude) =>
          let weatherReq := {| Latitude := latitude; Longitude := longitude |} in
          r <- call (EvGetCurrentWeather weatherReq) (GetCurrentWeather weatherReq) ;;
          match r with
          | Err _ =>
              StreamAdvice_loop rest weatherData
                (failedCities ++ [Sprintf "%s (weather failed)" [AString (Location city)]])
          | Ok weatherResp =>
              StreamAdvice_loop rest (weatherData ++ [weatherInfo city weatherResp])
                failedCities
          end
      end
  end.

(** The text of the chunk sent when no weather data was collected. *)
Definition diagnostic (failedCities : list string) : string :=
  let message := "i could not get any weather data for any of the cities" in
  let message :=
    if (0 <? length failedCities)%nat then
      message ++ Sprintf (String "010" "Failed to get weather data for: %s")
                   [AString (Join failedCities ", ")]
    else message in
  message ++ String "010" "Please check the city names and try again.".

Definition StreamAdvice (req : AdvisorRequest) : M W (option error) :=
  defer ObserveDuration
    (l <- StreamAdvice_loop (Cities req) [] [] ;;
     let '(weatherData, failedCities) := l in
     if (length weatherData =? 0)%nat then
       err <- send {| Chunk := diagnostic failedCities; IsComplete := true |} ;;
       match err with
       | None => Inc "success" ;;; ret err
       | Some _ => Inc "error" ;;; ret err
       end
     else
       err <- streamAdviceGeneration weatherData ;;
       match err with
       | Some e =>
           Inc "error" ;;;
           ret (Some (Errorf "advice generation failed: %v" [AError e]))
       | None => Inc "success" ;;; ret None
       end).

End Service.
End Advisor.

(** ** The package, second variant

    The second file of the package has [geocodeCity], [getAdvice] and
    [generateAdvice] only. Its [geocodeCity] and [generateAdvice] have the
    text of the first variant's; its [getAdvice] calls the weather service
    as [s.weatherSvc.GetCurrentWeather] and has its own format string. *)

Module AdvisorCopy.
Section Service.

Context {W : Type} {svc : Collaborators W}.

Definition Inc : string -> M W unit := Advisor.Inc.
Definition ObserveDuration : M W unit := Advisor.ObserveDuration.
Definition geocodeCity : CityData -> M W (result (float64 * float64)) :=
  Advisor.geocodeCity.
Definition generateAdvice : list string -> M W (result string) :=
  Advisor.generateAdvice.

Definition weatherInfo (city : CityData) (weatherResp : WeatherResponse) : string :=
  Sprintf ("City: %s, Temp: %.1f" ++ degree_twice_encoded
           ++ "C, Condition: %s, Humidity: %d%%, Wind: %.1f m/s")
    [AString (Location city); AFloat (Temperature weatherResp);
     AString (Description weatherResp); AInt (Humidity weatherResp);
     AFloat (WindSpeed weatherResp)].

Fixpoint getAdvice_loop (cities : list CityData) (weatherData : list string)
  : M W (result (list string)) :=
  match cities with
  | [] => ret (Ok weatherData)
  | city :: rest =>
      g <- geocodeCity city ;;
      match g with
      | Err err =>
          Inc "error" ;;;
          ret (Err (Errorf "geocoding failed for %s: %v"
                      [AString (Location city); AError err]))
      | Ok (latitude, longitude) =>
          let weatherReq := {| Latitude := latitude; Longitude := longitude |} in
          r <- call (EvGetCurrentWeather weatherReq) (GetCurrentWeather weatherReq) ;;
          match r with
          | Err err =>
              Inc "error" ;;;
              ret (Err (Errorf "weather request failed for %s: %v"
                          [AString (Location city); AError err]))
          | Ok weatherResp =>
              getAdvice_loop rest (weatherData ++ [weatherInfo city weatherResp])
          end
      end
  end.

Definition getAdvice (advisorRequest : AdvisorRequest) : M W (result AdvisorResponse) :=
  defer ObserveDuration
    (l <- getAdvice_loop (Cities advisorRequest) [] ;;
     match l with
     | Err e => ret (Err e)
     | Ok weatherData =>
         a <- generateAdvice weatherData ;;
         match a with
         | Err err =>
             Inc "error" ;;;
             ret (Err (Errorf "advice generation failed: %v" [AError err]))
         | Ok advice =>
             Inc "success" ;;;
             ret (Ok {| Advice := advice |})
         end
     end).

End Service.
End AdvisorCopy.

(** ** Reading a run

    What the properties below are stated with: the projections of the
    event log, and the lookups of a request, city by city. *)

Module Observe.

Definition is_generator_call (ev : Event) : bool :=
  match ev with
  | EvGenerateContent _ _ | EvGenerateContentStream _ _ => true
  | _ => false
  end.

(** The calls to the generative model, in order. *)
Definition generator_calls (evs : list Event) : list Event :=
  filter is_generator_call evs.

(** The chunks handed to [stream.Send], in order. *)
Fixpoint sent (evs : list Event) : list StreamAdviceResponse :=
  match evs with
  | [] => []
  | EvSend msg :: rest => msg :: sent rest
  | _ :: rest => sent rest
  end.

(** The labels of the outcome counter's increments, in order. *)
Fixpoint counted (evs : list Event) : list string :=
  match evs with
  | [] => []
  | EvInc status :: rest => status :: counted rest
  | _ :: rest => counted rest
  end.

(** The number of latency samples. *)
Fixpoint samples (evs : list Event) : nat :=
  match evs with
  | [] => 0
  | EvObserveDuration :: rest => S (samples rest)
  | _ :: rest => samples rest
  end.

(** The events of looking cities up: requests to the geocoder and to
    the weather service. *)
Definition is_lookup_event (ev : Event) : bool :=
  match ev with
  | EvHttpGet _ | EvGetCurrentWeather _ => true
  | _ => false
  end.

Definition quiet (evs : list Event) : Prop := forallb is_lookup_event evs = true.

(** The label under which a call is counted, by its result. *)
Definition status_of {A} (r : result A) : string :=
  if is_err r then "error" else "success".

Definition stream_status (err : option error) : string :=
  match err with None => "success" | Some _ => "error" end.

(** The log of handing chunks to [stream.Send], one after the other. *)
Definition sends (msgs : list StreamAdviceResponse) : list Event := map EvSend msgs.

(** The text parts of a part list. *)
Fixpoint texts (parts : list Part) : list string :=
  match parts with
  | [] => []
  | Text text :: rest => text :: texts rest
  | _ :: rest => texts rest
  end.

(** The text parts of all candidates of all responses, in order. *)
Definition fragments (responses : list GenerateContentResponse) : list string :=
  flat_map (fun resp =>
    flat_map (fun cand => texts (Parts (Content cand))) (Candidates resp))
    responses.

Definition fragment_chunk (text : string) : StreamAdviceResponse :=
  {| Chunk := text; IsComplete := false |}.

Definition terminal_chunk : StreamAdviceResponse :=
  {| Chunk := EmptyString; IsComplete := true |}.

(** The condition under which the relay loop takes the iterator's error
    for the end of the data. *)
Definition end_of_data (err : error) : bool :=
  Contains err "EOF" || Contains err "iterator stopped".

(** What became of one city. *)
Inductive Lookup : Type :=
| Resolved (city : CityData) (weatherResp : WeatherResponse)
| GeocodeFailed (city : CityData) (cause : error)
| WeatherFailed (city : CityData) (cause : error).

Definition lookup_city (l : Lookup) : CityData :=
  match l with
  | Resolved city _ | GeocodeFailed city _ | WeatherFailed city _ => city
  end.

Definition is_failure (l : Lookup) : bool :=
  match l with Resolved _ _ => false | _ => true end.

Definition first_failure (ls : list Lookup) : option Lookup := find is_failure ls.

(** The summary lines of the cities that have an observation. *)
Fixpoint observations (ls : list Lookup) : list string :=
  match ls with
  | [] => []
  | Resolved city weatherResp :: rest =>
      Advisor.weatherInfo city weatherResp :: observations rest
  | _ :: rest => observations rest
  end.

Definition failure_label (l : Lookup) : list string :=
  match l with
  | Resolved _ _ => []
  | GeocodeFailed city _ => [Location city]
  | WeatherFailed city _ => [Location city ++ " (weather failed)"]
  end.

(** The entries of the failed-city list. *)
Definition failures (ls : list Lookup) : list string := flat_map failure_label ls.

(** The error of a failed lookup, naming the city and the cause. *)
Definition failure_error (l : Lookup) : error :=
  match l with
  | Resolved _ _ => EmptyString
  | GeocodeFailed city cause =>
      "geocoding failed for " ++ Location city ++ ": " ++ cause
  | WeatherFailed city cause =>
      "weather request failed for " ++ Location city ++ ": " ++ cause
  end.

Section Lookups.

Context {W : Type} {svc : Collaborators W}.

(** The two calls either path makes for a city. *)
Definition lookupCity (city : CityData) : M W Lookup :=
  g <- Advisor.geocodeCity city ;;
  match g with
  | Err err => ret (GeocodeFailed city err)
  | Ok (latitude, longitude) =>
      let weatherReq := {| Latitude := latitude; Longitude := longitude |} in
      r <- call (EvGetCurrentWeather weatherReq) (GetCurrentWeather weatherReq) ;;
      match r with
      | Err err => ret (WeatherFailed city err)
      | Ok weatherResp => ret (Resolved city weatherResp)
      end
  end.

(** The lookups of a list of cities, none skipped, in order. *)
Fixpoint lookupAll (cities : list CityData) : M W (list Lookup) :=
  match cities with
  | [] => ret []
  | city :: rest =>
      l <- lookupCity city ;;
      ls <- lookupAll rest ;;
      ret (l :: ls)
  end.

(** Why a streaming call returned an error: the stream refused the
    diagnostic chunk, the terminal chunk or a fragment, or the
    iterator failed. *)
Definition stream_error_cause (req : AdvisorRequest) (w : W) (e : error) : Prop :=
  (exists w', fst (Send {| Chunk := Advisor.diagnostic
                                      (failures (value (lookupAll (Cities req) w)));
                           IsComplete := true |} w') = Some e)
  \/ (exists w' e', fst (Send terminal_chunk w') = Some e'
                    /\ e = "advice generation failed: " ++ e')
  \/ (exists cause, e = "advice generation failed: failed to send chunk: " ++ cause)
  \/ (exists err, end_of_data err = false
                  /\ e = "advice generation failed: streaming failed: " ++ err).

End Lookups.

Section Ends.

Context {W : Type} {svc : Collaborators W}.

(** How the relay loop can end, with the fragments already handed to
    [Send] and those left: at the end of the data, with the terminal
    chunk; at an error of the iterator; at a fragment [Send] refused. *)
Inductive RelayEnd (err : error) (r : Run W (option error))
    (done todo : list string) : Prop :=
| Completed (w' : W) :
    todo = [] -> end_of_data err = true ->
    events r = sends (map fragment_chunk done ++ [terminal_chunk]) ->
    value r = fst (Send terminal_chunk w') ->
    RelayEnd err r done todo
| IterationFailed :
    todo = [] -> end_of_data err = false ->
    events r = sends (map fragment_chunk done) ->
    value r = Some ("streaming failed: " ++ err) ->
    RelayEnd err r done todo
| FragmentRefused (cause : error) :
    events r = sends (map fragment_chunk done) ->
    value r = Some ("failed to send chunk: " ++ cause) ->
    RelayEnd err r done todo.

End Ends.

End Observe.
Import Observe.

(** ** A concrete world

    Collaborators with fixed replies, to run the package on: the world
    counts the calls made so far. *)

Module Demo.

Definition paris : geoCodeResult :=
  {| geo_Name := "Paris";
     geo_Latitude := S754_finite false 3437977586790459 (-46);
     geo_Longitude := S754_finite false 662085440218805 (-48);
     geo_Country := "France";
     geo_Admin1 := "Ile-de-France" |}.

Definition null_island : geoCodeResult :=
  {| geo_Name := "Null Island";
     geo_Latitude := S754_zero false;
     geo_Longitude := S754_zero false;
     geo_Country := EmptyString;
     geo_Admin1 := EmptyString |}.

Definition found (r : list geoCodeResult) : result HttpResponse :=
  Ok {| StatusCode := 200; Status := "200 OK"; Body := Ok {| Results := r |} |}.

Definition clear_sky : WeatherResponse :=
  {| Temperature := S754_finite false 45 (-1);
     Description := "clear sky";
     Humidity := 40;
     WindSpeed := S754_finite false 3602879701896397 (-50) |}.

Definition candidate (parts : list Part) : Candidate :=
  {| Content := {| Parts := parts |} |}.

Definition whole : GenerateContentResponse :=
  {| Candidates :=
       [candidate [Text "Wear "; Blob "image/png" "89504e47"; Text "a light jacket."];
        candidate [Text "Stay in."]] |}.

Definition piecewise : GenerateContentResponseIterator :=
  {| pending :=
       [{| Candidates := [candidate [Text "Sunny"; Text " and"];
                          candidate [Text " mild."]] |};
        {| Candidates := [candidate [FunctionCall "lookup"; Text " Enjoy."]] |}];
     stop := "EOF" |}.

#[local] Instance replies : Collaborators nat := {
  httpGet url w :=
    (if Contains url "Paris" then found [paris]
     else if Contains url "Null" then found [null_island]
     else if Contains url "Atlantis" then found []
     else Err "dial tcp: i/o timeout",
     S w);
  GetCurrentWeather req w :=
    (match Latitude req with
     | S754_zero _ => Err "no station in range"
     | _ => Ok clear_sky
     end,
     S w);
  GenerateContent model prompt w := (Ok whole, S w);
  GenerateContentStream model prompt w := (piecewise, S w);
  Send msg w := (None, S w)
}.

Definition request (names : list string) : AdvisorRequest :=
  {| Cities := map (fun n => {| Location := n |}) names |}.

End Demo.

(** ** Reading a run, continued

    The requests a run makes to the geocoder and to the weather service,
    the alphabet of an escaped query, and the lookups the unary path
    gets to. *)

Module Requests.

(** The URL [geocodeCity] requests for a city. *)
Definition geocode_url (city : CityData) : string :=
  "https://nominatim.openstreetmap.org/search?q="
  ++ QueryEscape (Location city) ++ "&format=json&limit=1".

(** The URLs requested from the geocoder, in order. *)
Fixpoint http_requests (evs : list Event) : list string :=
  match evs with
  | [] => []
  | EvHttpGet url :: rest => url :: http_requests rest
  | _ :: rest => http_requests rest
  end.

(** The requests to the weather service, in order. *)
Fixpoint weather_requests (evs : list Event) : list WeatherRequest :=
  match evs with
  | [] => []
  | EvGetCurrentWeather req :: rest => req :: weather_requests rest
  | _ :: rest => weather_requests rest
  end.

Fixpoint string_forall (p : ascii -> bool) (s : string) : bool :=
  match s with
  | EmptyString => true
  | String c rest => p c && string_forall p rest
  end.

(** The bytes an escaped query is made of: the unreserved ones, the plus
    sign that stands for a space, and the percent sign of an escape. *)
Definition is_query_safe (c : ascii) : bool :=
  negb (shouldEscape c) || Ascii.eqb c "+" || Ascii.eqb c "%".

Definition unhex (c : ascii) : option N :=
  let n := N_of_ascii c in
  if ((48 <=? n) && (n <=? 57))%N then Some (n - 48)%N
  else if ((65 <=? n) && (n <=? 70))%N then Some (n - 55)%N
  else if ((97 <=? n) && (n <=? 102))%N then Some (n - 87)%N
  else None.

(** [url.QueryUnescape], the inverse of [QueryEscape]; [None] is its
    error. *)
Fixpoint QueryUnescape (s : string) : option string :=
  match s with
  | EmptyString => Some EmptyString
  | String c rest =>
      if Ascii.eqb c "%" then
        match rest with
        | String h (String l rest') =>
            match unhex h, unhex l, QueryUnescape rest' with
            | Some a, Some b, Some t => Some (String (ascii_of_N (16 * a + b)) t)
            | _, _, _ => None
            end
        | _ => None
        end
      else if Ascii.eqb c "+" then option_map (String " ") (QueryUnescape rest)
      else option_map (String c) (QueryUnescape rest)
  end.

Definition is_geocode_failure (l : Lookup) : bool :=
  match l with GeocodeFailed _ _ => true | _ => false end.

(** The lookups up to the first failed one, which is the last kept. *)
Fixpoint through_failure (ls : list Lookup) : list Lookup :=
  match ls with
  | [] => []
  | l :: rest => if is_failure l then [l] else l :: through_failure rest
  end.

(** The summary lines of the second variant. *)
Fixpoint copy_observations (ls : list Lookup) : list string :=
  match ls with
  | [] => []
  | Resolved city weatherResp :: rest =>
      AdvisorCopy.weatherInfo city weatherResp :: copy_observations rest
  | _ :: rest => copy_observations rest
  end.

End Requests.
Import Requests.

(** ** Worlds in which something fails *)

Module Outage.

#[local] Instance disconnected : Collaborators nat := {
  httpGet := httpGet (Collaborators := Demo.replies);
  GetCurrentWeather := GetCurrentWeather (Collaborators := Demo.replies);
  GenerateContent := GenerateContent (Collaborators := Demo.replies);
  GenerateContentStream := GenerateContentStream (Collaborators := Demo.replies);
  Send msg w := (Some "transport is closing", S w)
}.

(** A generator whose reply has a first candidate without text. *)
#[local] Instance speechless : Collaborators nat := {
  httpGet := httpGet (Collaborators := Demo.replies);
  GetCurrentWeather := GetCurrentWeather (Collaborators := Demo.replies);
  GenerateContent model prompt w :=
    (Ok {| Candidates := [Demo.candidate [Blob "image/png" "89504e47"];
                          Demo.candidate [Text "Stay in."]] |}, S w);
  GenerateContentStream := GenerateContentStream (Collaborators := Demo.replies);
  Send := Send (Collaborators := Demo.replies)
}.

(** A generator whose sequence breaks off with an error that is not the
    end of the data. *)
#[local] Instance interrupted : Collaborators nat := {
  httpGet := httpGet (Collaborators := Demo.replies);
  GetCurrentWeather := GetCurrentWeather (Collaborators := Demo.replies);
  GenerateContent := GenerateContent (Collaborators := Demo.replies);
  GenerateContentStream model prompt w :=
    ({| pending := pending Demo.piecewise; stop := "rpc error: connection reset" |}, S w);
  Send := Send (Collaborators := Demo.replies)
}.

End Outage.

(** ** Properties *)

Section Strings.

Lemma append_empty_r (s : string) : s ++ EmptyString = s.
Proof. induction s as [|c s IH]; cbn; [|rewrite IH]; reflexivity. Qed.

Lemma append_assoc (a b c : string) : (a ++ b) ++ c = a ++ b ++ c.
Proof. induction a as [|x a IH]; cbn; [|rewrite IH]; reflexivity. Qed.

End Strings.

Section Floats.

Lemma round_half_even_nearest (num den : Z) :
  (0 < den)%Z ->
  (Z.abs (2 * num - 2 * round_half_even num den * den) <= den)%Z.
Proof.
  intros Hden. unfold round_half_even.
  pose proof (Z.div_mod num den ltac:(lia)) as Hdm.
  pose proof (Z.mod_pos_bound num den Hden) as Hr.
  destruct (Z.compare_spec (2 * (num mod den)) den) as [E|E|E];
    [destruct (Z.even (num / den))|..]; nia.
Qed.

(** [%.1f] keeps the tenth nearest to the magnitude: exactly the value
    when it is an integer, within half a tenth otherwise. *)
Lemma tenths_nearest (m : positive) (e : Z) :
  if (0 <=? e)%Z then tenths m e = (Z.pos m * 2 ^ e * 10)%Z
  else (Z.abs (2 * (Z.pos m * 10) - 2 * tenths m e * 2 ^ (- e)) <= 2 ^ (- e))%Z.
Proof.
  unfold tenths. destruct (0 <=? e)%Z eqn:E; [reflexivity|].
  apply round_half_even_nearest. apply Z.pow_pos_nonneg; lia.
Qed.

End Floats.

Section Logs.

Lemma generator_calls_app (a b : list Event) :
  generator_calls (a ++ b) = (generator_calls a ++ generator_calls b)%list.
Proof. apply filter_app. Qed.

Lemma sent_app (a b : list Event) : sent (a ++ b) = (sent a ++ sent b)%list.
Proof.
  induction a as [|ev a IH]; [reflexivity|].
  destruct ev; cbn; rewrite ?IH; reflexivity.
Qed.

Lemma counted_app (a b : list Event) : counted (a ++ b) = (counted a ++ counted b)%list.
Proof.
  induction a as [|ev a IH]; [reflexivity|].
  destruct ev; cbn; rewrite ?IH; reflexivity.
Qed.

Lemma samples_app (a b : list Event) : samples (a ++ b) = samples a + samples b.
Proof.
  induction a as [|ev a IH]; [reflexivity|].
  destruct ev; cbn; rewrite ?IH; reflexivity.
Qed.

Lemma quiet_app (a b : list Event) : quiet a -> quiet b -> quiet (a ++ b).
Proof. unfold quiet. rewrite forallb_app. intros -> ->. reflexivity. Qed.

Lemma quiet_silent (evs : list Event) :
  quiet evs ->
  generator_calls evs = [] /\ sent evs = [] /\ counted evs = [] /\ samples evs = 0.
Proof.
  unfold quiet. induction evs as [|ev evs IH]; [now repeat split|].
  cbn [forallb]. intros H. apply andb_prop in H as [Hev H].
  destruct (IH H) as (? & ? & ? & ?).
  destruct ev; try discriminate; cbn; auto.
Qed.

End Logs.

Section Parts.

Lemma writeTexts_acc (parts : list Part) (advice : string) :
  Advisor.writeTexts parts advice
  = advice ++ String.concat EmptyString (texts parts).
Proof.
  revert advice. induction parts as [|part rest IH]; intros advice.
  - cbn. rewrite append_empty_r. reflexivity.
  - destruct part; cbn [Advisor.writeTexts texts]; rewrite IH; [|reflexivity..].
    rewrite append_assoc. f_equal.
    destruct (texts rest); cbn; [rewrite append_empty_r|]; reflexivity.
Qed.

(** What [generateAdvice] builds from a candidate: its text parts,
    concatenated; parts of other kinds leave no trace. *)
Lemma writeTexts_concat (parts : list Part) :
  Advisor.writeTexts parts EmptyString = String.concat EmptyString (texts parts).
Proof. apply writeTexts_acc. Qed.

End Parts.

#[local] Arguments Advisor.geocodeCity : simpl never.
#[local] Arguments lookupCity : simpl never.
#[local] Arguments Advisor.generateAdvice : simpl never.
#[local] Arguments Advisor.weatherInfo : simpl never.

Section Lookups.

Context {W : Type} {svc : Collaborators W}.

Lemma geocodeCity_events (city : CityData) (w : W) :
  quiet (events (Advisor.geocodeCity city w)).
Proof.
  unfold Advisor.geocodeCity, bind, call, quiet. cbn.
  destruct (fst (httpGet _ w)) as [resp|err]; [|reflexivity].
  destruct (StatusCode resp =? StatusOK)%Z; [|reflexivity]. cbn.
  destruct (Body resp) as [geo|err]; [|reflexivity].
  destruct (Results geo); reflexivity.
Qed.

Lemma lookupCity_events (city : CityData) (w : W) :
  quiet (events (lookupCity city w)).
Proof.
  unfold lookupCity, bind. cbn.
  pose proof (geocodeCity_events city w) as Hg.
  destruct (Advisor.geocodeCity city w) as [[[lat lon]|err] evs w']; cbn in *.
  - apply quiet_app; [exact Hg|].
    destruct (fst (GetCurrentWeather _ w')); reflexivity.
  - rewrite app_nil_r. exact Hg.
Qed.

Lemma lookupCity_city (city : CityData) (w : W) :
  lookup_city (value (lookupCity city w)) = city.
Proof.
  unfold lookupCity, bind. cbn.
  destruct (Advisor.geocodeCity city w) as [[[lat lon]|err] evs w']; cbn; [|reflexivity].
  destruct (fst (GetCurrentWeather _ w')); reflexivity.
Qed.

Lemma lookupAll_events (cities : list CityData) (w : W) :
  quiet (events (lookupAll cities w)).
Proof.
  revert w. induction cities as [|city rest IH]; intros w; [reflexivity|].
  cbn. apply quiet_app; [apply lookupCity_events|].
  rewrite app_nil_r. apply IH.
Qed.

(** Every city is looked up, in the order of the request. *)
Lemma lookupAll_cities (cities : list CityData) (w : W) :
  map lookup_city (value (lookupAll cities w)) = cities.
Proof.
  revert w. induction cities as [|city rest IH]; intros w; [reflexivity|].
  cbn. rewrite lookupCity_city, IH. reflexivity.
Qed.

Lemma first_failure_exists (ls : list Lookup) (l : Lookup) :
  In l ls -> is_failure l = true ->
  exists f, first_failure ls = Some f /\ In f ls /\ is_failure f = true.
Proof.
  intros Hin Hl. unfold first_failure.
  destruct (find is_failure ls) as [f|] eqn:E.
  - exists f. apply find_some in E. tauto.
  - rewrite (find_none _ _ E l Hin) in Hl. discriminate.
Qed.

End Lookups.

Section Unary.

Context {W : Type} {svc : Collaborators W}.

(** The unary loop against the lookups of its cities: it returns the
    error of the first failed one, having counted it, or else has
    collected a line per city. *)
Lemma getAdvice_loop_lookups (cities : list CityData) (weatherData : list string) (w : W) :
  let l := Advisor.getAdvice_loop cities weatherData w in
  let ls := lookupAll cities w in
  match first_failure (value ls) with
  | Some f =>
      value l = Err (failure_error f)
      /\ generator_calls (events l) = [] /\ sent (events l) = []
      /\ counted (events l) = ["error"] /\ samples (events l) = 0
  | None =>
      value l = Ok (weatherData ++ observations (value ls))%list
      /\ events l = events ls /\ after l = after ls
  end.
Proof.
  unfold first_failure, generator_calls.
  revert weatherData w. induction cities as [|city rest IH]; intros weatherData w.
  - cbn. rewrite app_nil_r. auto.
  - cbn. unfold lookupCity, bind. cbn.
    pose proof (geocodeCity_events city w) as Hg. apply quiet_silent in Hg.
    unfold generator_calls in Hg. destruct Hg as (Hg1 & Hg2 & Hg3 & Hg4).
    destruct (Advisor.geocodeCity city w) as [[[lat lon]|err] evs w1]; cbn in *.
    + destruct (fst (GetCurrentWeather _ w1)) as [resp|err] eqn:Ew; cbn.
      * specialize (IH (weatherData ++ [Advisor.weatherInfo city resp])%list
                       (snd (GetCurrentWeather {| Latitude := lat; Longitude := lon |} w1))).
        cbn in IH.
        destruct (find is_failure _) as [f|].
        -- destruct IH as (Hv & H1 & H2 & H3 & H4).
           rewrite filter_app, sent_app, counted_app, samples_app. cbn.
           rewrite Hv, H1, H2, H3, H4, Hg1, Hg2, Hg3, Hg4. auto.
        -- destruct IH as (Hv & He & Ha).
           rewrite Hv, He, Ha, <- !app_assoc, !app_nil_r. auto.
      * rewrite filter_app, sent_app, counted_app, samples_app. cbn.
        rewrite Hg1, Hg2, Hg3, Hg4. rewrite append_empty_r. auto.
    + rewrite filter_app, sent_app, counted_app, samples_app. cbn.
      rewrite Hg1, Hg2, Hg3, Hg4. rewrite append_empty_r. auto.
Qed.

Lemma generateAdvice_run (weatherData : list string) (w : W) :
  let prompt := Advisor.generateAdvice_prompt weatherData in
  let g := GenerateContent "gemini-2.5-flash" prompt w in
  Advisor.generateAdvice weatherData w =
    mkRun
      match fst g with
      | Err err => Err ("gemini API failed: " ++ err)
      | Ok resp =>
          match Candidates resp with
          | [] => Err "no response generated"
          | first :: _ => Ok (Advisor.writeTexts (Parts (Content first)) EmptyString)
          end
      end
      [EvGenerateContent "gemini-2.5-flash" prompt]
      (snd g).
Proof.
  unfold Advisor.generateAdvice, bind, call. cbn.
  destruct (fst (GenerateContent _ _ w)) as [resp|err]; cbn.
  - destruct (Candidates resp); reflexivity.
  - rewrite append_empty_r. reflexivity.
Qed.

(** A run of [getAdvice], against the lookups of its cities. *)
Lemma getAdvice_run (req : AdvisorRequest) (w : W) :
  let r := Advisor.getAdvice req w in
  let ls := lookupAll (Cities req) w in
  match first_failure (value ls) with
  | Some f =>
      value r = Err (failure_error f)
      /\ generator_calls (events r) = [] /\ sent (events r) = []
      /\ counted (events r) = ["error"] /\ samples (events r) = 1
  | None =>
      let g := Advisor.generateAdvice (observations (value ls)) (after ls) in
      value r = match value g with
                | Err err => Err ("advice generation failed: " ++ err)
                | Ok advice => Ok {| Advice := advice |}
                end
      /\ events r = (events ls ++ events g
                     ++ [EvInc (status_of (value g)); EvObserveDuration])%list
      /\ after r = after g
  end.
Proof.
  cbn zeta. pose proof (getAdvice_loop_lookups (Cities req) [] w) as H. cbn zeta in H.
  unfold Advisor.getAdvice, defer, bind.
  destruct (first_failure _) as [f|].
  - destruct H as (Hv & H1 & H2 & H3 & H4). rewrite Hv. cbn.
    rewrite !app_nil_r, generator_calls_app, sent_app, counted_app, samples_app.
    rewrite H1, H2, H3, H4. auto.
  - destruct H as (Hv & He & Ha). rewrite Hv, He, Ha. cbn.
    rewrite !generateAdvice_run. cbn.
    destruct (fst (GenerateContent _ _ _)) as [resp|err]; cbn.
    + destruct (Candidates resp); cbn; rewrite <- !app_assoc; auto.
    + rewrite append_empty_r, <- !app_assoc. auto.
Qed.

(** C1. Fail-fast. If any city of a request fails, at resolution or at
    the weather fetch, [getAdvice] returns an error (so no advisory,
    not even a partial one) whose message names the first such city and
    the cause of its failure, and the run makes no call to the
    generator. *)
Theorem getAdvice_fail_fast (req : AdvisorRequest) (w : W) (l : Lookup) :
  In l (value (lookupAll (Cities req) w)) ->
  is_failure l = true ->
  exists city cause,
    In city (Cities req)
    /\ (first_failure (value (lookupAll (Cities req) w)) = Some (GeocodeFailed city cause)
        /\ value (Advisor.getAdvice req w)
           = Err ("geocoding failed for " ++ Location city ++ ": " ++ cause)
        \/ first_failure (value (lookupAll (Cities req) w)) = Some (WeatherFailed city cause)
        /\ value (Advisor.getAdvice req w)
           = Err ("weather request failed for " ++ Location city ++ ": " ++ cause))
    /\ generator_calls (events (Advisor.getAdvice req w)) = [].
Proof.
  intros Hin Hl.
  destruct (first_failure_exists _ _ Hin Hl) as (f & Hf & Hfin & Hff).
  pose proof (getAdvice_run req w) as H. cbn zeta in H. rewrite Hf in H.
  destruct H as (Hv & Hg & _).
  assert (Hc : In (lookup_city f) (Cities req)).
  { rewrite <- (lookupAll_cities (Cities req) w). apply in_map. exact Hfin. }
  destruct f as [city resp|city cause|city cause]; [discriminate| |];
    exists city, cause; cbn in *; auto.
Qed.

(** The case the specification singles out: the first city fails
    resolution. Nothing but the request to the geocoder, the count of
    an error and the latency sample happens. *)
Lemma getAdvice_first_city_unresolved
    (city : CityData) (rest : list CityData) (w : W) (cause : error) :
  value (Advisor.geocodeCity city w) = Err cause ->
  let r := Advisor.getAdvice {| Cities := city :: rest |} w in
  value r = Err ("geocoding failed for " ++ Location city ++ ": " ++ cause)
  /\ generator_calls (events r) = []
  /\ quiet (events (Advisor.geocodeCity city w))
  /\ events r = (events (Advisor.geocodeCity city w) ++ [EvInc "error"; EvObserveDuration])%list.
Proof.
  intros Hc. cbn zeta.
  pose proof (geocodeCity_events city w) as Hq.
  destruct (quiet_silent _ Hq) as (Hg & _). unfold generator_calls in *.
  unfold Advisor.getAdvice, defer, bind. cbn. unfold bind.
  rewrite Hc. cbn. rewrite append_empty_r, !app_nil_r, <- !app_assoc, filter_app, Hg.
  auto.
Qed.

(** C9. A request with no city is not a special case of [getAdvice]:
    it makes one call to the generator, with the prompt of an empty
    list of summaries (the template with nothing where the summaries
    go), and returns the advice that call yields, or its failure. *)
Theorem getAdvice_no_cities (w : W) :
  let r := Advisor.getAdvice {| Cities := [] |} w in
  let prompt :=
    "Weather advisor. Based on this data provide practical advice:  Include: summary, clothing advice, activity suggestions, places to visit if good weather, warnings. Keep it concise." in
  let g := GenerateContent "gemini-2.5-flash" prompt w in
  Advisor.generateAdvice_prompt [] = prompt
  /\ value r =
       match fst g with
       | Err err => Err ("advice generation failed: gemini API failed: " ++ err)
       | Ok resp =>
           match Candidates resp with
           | [] => Err "advice generation failed: no response generated"
           | first :: _ =>
               Ok {| Advice := String.concat EmptyString (texts (Parts (Content first))) |}
           end
       end
  /\ events r =
       [EvGenerateContent "gemini-2.5-flash" prompt;
        EvInc (status_of (value r)); EvObserveDuration]
  /\ after r = snd g.
Proof.
  cbn zeta. split; [reflexivity|].
  unfold Advisor.getAdvice, defer, bind. cbn.
  rewrite !generateAdvice_run. cbn.
  destruct (fst (GenerateContent _ _ w)) as [resp|err]; cbn.
  - destruct (Candidates resp) as [|first others]; cbn; [auto|].
    rewrite writeTexts_concat. auto.
  - rewrite append_empty_r. auto.
Qed.

End Unary.

Section Relay.

Context {W : Type} {svc : Collaborators W}.

Lemma sent_sends (msgs : list StreamAdviceResponse) : sent (sends msgs) = msgs.
Proof.
  unfold sends. induction msgs as [|m msgs IH]; cbn; [|f_equal; exact IH]; reflexivity.
Qed.

Lemma sends_silent (msgs : list StreamAdviceResponse) :
  generator_calls (sends msgs) = [] /\ counted (sends msgs) = []
  /\ samples (sends msgs) = 0.
Proof. unfold sends, generator_calls. induction msgs as [|m msgs IH]; cbn; auto. Qed.

(** The innermost loop hands the text parts to [Send] in order, up to
    the first that [Send] refuses. *)
Lemma relay_parts_run (parts : list Part) (w : W) :
  let r := Advisor.relay_parts parts w in
  exists done todo,
    texts parts = (done ++ todo)%list
    /\ events r = sends (map fragment_chunk done)
    /\ match value r with
       | None => todo = []
       | Some e => exists cause, e = "failed to send chunk: " ++ cause
       end.
Proof.
  cbn zeta. revert w. induction parts as [|part rest IH]; intros w.
  - exists [], []. cbn. auto.
  - destruct part as [text|mime data|name]; cbn [Advisor.relay_parts texts]; [|apply IH..].
    unfold bind, Advisor.send, call. cbn.
    destruct (fst (Send _ w)) as [err|] eqn:E; cbn.
    + exists [text], (texts rest). cbn. repeat split.
      exists err. rewrite append_empty_r. reflexivity.
    + destruct (IH (snd (Send (fragment_chunk text) w))) as (done & todo & Ht & He & Hv).
      exists (text :: done), todo. cbn. rewrite Ht.
      unfold fragment_chunk in *. rewrite He. auto.
Qed.

Lemma relay_candidates_run (cands : list Candidate) (w : W) :
  let r := Advisor.relay_candidates cands w in
  exists done todo,
    flat_map (fun cand => texts (Parts (Content cand))) cands = (done ++ todo)%list
    /\ events r = sends (map fragment_chunk done)
    /\ match value r with
       | None => todo = []
       | Some e => exists cause, e = "failed to send chunk: " ++ cause
       end.
Proof.
  cbn zeta. revert w. induction cands as [|cand rest IH]; intros w.
  - exists [], []. cbn. auto.
  - cbn [Advisor.relay_candidates flat_map]. unfold bind.
    destruct (relay_parts_run (Parts (Content cand)) w) as (d1 & t1 & Ht1 & He1 & Hv1).
    cbn zeta in *.
    destruct (Advisor.relay_parts (Parts (Content cand)) w) as [[e|] evs w1]; cbn in *.
    + exists d1, (t1 ++ flat_map (fun c => texts (Parts (Content c))) rest)%list.
      rewrite Ht1, He1, app_nil_r, <- app_assoc. auto.
    + destruct (IH w1) as (d2 & t2 & Ht2 & He2 & Hv2). subst t1.
      exists (d1 ++ d2)%list, t2.
      rewrite Ht1, Ht2, He1, He2, app_nil_r, <- app_assoc.
      unfold sends. rewrite !map_app. auto.
Qed.

Lemma relay_run (responses : list GenerateContentResponse) (err : error) (w : W) :
  exists done todo,
    fragments responses = (done ++ todo)%list
    /\ RelayEnd err (Advisor.relay responses err w) done todo.
Proof.
  revert w. induction responses as [|resp rest IH]; intros w.
  - exists [], []. split; [reflexivity|].
    cbn [Advisor.relay]. fold (end_of_data err).
    destruct (end_of_data err) eqn:E.
    + apply Completed with w; auto.
    + apply IterationFailed; auto. cbn. rewrite append_empty_r. reflexivity.
  - cbn [Advisor.relay]. unfold bind, fragments. cbn [flat_map]. fold (fragments rest).
    destruct (relay_candidates_run (Candidates resp) w) as (d1 & t1 & Ht1 & He1 & Hv1).
    cbn zeta in *.
    destruct (Advisor.relay_candidates (Candidates resp) w) as [[e|] evs w1]; cbn in *.
    + destruct Hv1 as (cause & ->).
      exists d1, (t1 ++ fragments rest)%list. rewrite Ht1, <- app_assoc. split; [reflexivity|].
      apply FragmentRefused with cause; cbn; [rewrite app_nil_r|]; auto.
    + subst t1. rewrite app_nil_r in Ht1.
      destruct (IH w1) as (d2 & t2 & Ht2 & Hend).
      exists (d1 ++ d2)%list, t2. rewrite Ht1, Ht2, <- app_assoc. split; [reflexivity|].
      destruct Hend as [w' Htodo Heod Hev Hval|Htodo Heod Hev Hval|cause Hev Hval].
      * apply Completed with w'; auto. cbn. rewrite He1, Hev. unfold sends.
        rewrite !map_app, <- !app_assoc. reflexivity.
      * apply IterationFailed; auto. cbn. rewrite He1, Hev. unfold sends.
        rewrite !map_app. reflexivity.
      * apply FragmentRefused with cause; auto. cbn. rewrite He1, Hev. unfold sends.
        rewrite !map_app. reflexivity.
Qed.

End Relay.

Section Streaming.

Context {W : Type} {svc : Collaborators W}.

(** The streaming loop against the lookups of its cities: it visits
    them all, keeps a line per observation and an entry per failure. *)
Lemma StreamAdvice_loop_lookups
    (cities : list CityData) (weatherData failedCities : list string) (w : W) :
  let l := Advisor.StreamAdvice_loop cities weatherData failedCities w in
  let ls := lookupAll cities w in
  value l = ((weatherData ++ observations (value ls))%list,
             (failedCities ++ failures (value ls))%list)
  /\ events l = events ls /\ after l = after ls.
Proof.
  cbn zeta. revert weatherData failedCities w.
  induction cities as [|city rest IH]; intros weatherData failedCities w.
  - cbn. rewrite !app_nil_r. auto.
  - cbn. unfold lookupCity, bind. cbn.
    destruct (Advisor.geocodeCity city w) as [[[lat lon]|err] evs w1]; cbn.
    + destruct (fst (GetCurrentWeather _ w1)) as [resp|err]; cbn;
        match goal with
        | |- context [Advisor.StreamAdvice_loop rest ?wd ?fc ?w'] =>
            destruct (IH wd fc w') as (Hv & He & Ha)
        end;
        rewrite Hv, He, Ha, <- !app_assoc, ?app_nil_r; cbn;
        rewrite ?append_empty_r; auto.
    + destruct (IH weatherData (failedCities ++ [Location city])%list w1) as (Hv & He & Ha).
      rewrite Hv, He, Ha, <- !app_assoc, ?app_nil_r. auto.
Qed.

Lemma streamAdviceGeneration_run (weatherData : list string) (w : W) :
  let prompt := Advisor.streamAdviceGeneration_prompt weatherData in
  let g := GenerateContentStream "gemini-2.5-pro" prompt w in
  let r := Advisor.relay (pending (fst g)) (stop (fst g)) (snd g) in
  Advisor.streamAdviceGeneration weatherData w =
    mkRun (value r) (EvGenerateContentStream "gemini-2.5-pro" prompt :: events r) (after r).
Proof. reflexivity. Qed.

(** A run of [StreamAdvice], against the lookups of its cities. *)
Lemma StreamAdvice_run (req : AdvisorRequest) (w : W) :
  let r := Advisor.StreamAdvice req w in
  let ls := lookupAll (Cities req) w in
  match observations (value ls) with
  | [] =>
      let msg := {| Chunk := Advisor.diagnostic (failures (value ls));
                    IsComplete := true |} in
      let s := Send msg (after ls) in
      value r = fst s
      /\ events r = (events ls
                     ++ [EvSend msg; EvInc (stream_status (fst s)); EvObserveDuration])%list
  | _ :: _ =>
      let g := Advisor.streamAdviceGeneration (observations (value ls)) (after ls) in
      value r = match value g with
                | Some e => Some ("advice generation failed: " ++ e)
                | None => None
                end
      /\ events r = (events ls ++ events g
                     ++ [EvInc (stream_status (value g)); EvObserveDuration])%list
  end.
Proof.
  cbn zeta. unfold Advisor.StreamAdvice, defer, bind.
  destruct (StreamAdvice_loop_lookups (Cities req) [] [] w) as (Hv & He & Ha).
  rewrite Hv, He, Ha. cbn [app].
  destruct (observations _) as [|line lines]; cbn [length Nat.eqb].
  - unfold bind, Advisor.send, call. cbn.
    destruct (fst (Send _ _)); cbn; rewrite <- !app_assoc; auto.
  - unfold bind. cbn [value events after].
    destruct (Advisor.streamAdviceGeneration _ _) as [[e|] evs w1]; cbn;
      rewrite ?append_empty_r, <- !app_assoc; auto.
Qed.

End Streaming.

Section StreamingProperties.

Context {W : Type} {svc : Collaborators W}.

Lemma relay_events_sends (responses : list GenerateContentResponse) (err : error) (w : W) :
  exists msgs, events (Advisor.relay responses err w) = sends msgs.
Proof.
  destruct (relay_run responses err w) as (done & todo & _ & [w' _ _ He _|_ _ He _|cause He _]);
    eauto.
Qed.

Lemma failures_entries (ls : list Lookup) :
  observations ls = [] ->
  Forall2 (fun l entry =>
             match l with
             | Resolved _ _ => False
             | GeocodeFailed city _ => entry = Location city
             | WeatherFailed city _ => entry = Location city ++ " (weather failed)"
             end) ls (failures ls).
Proof.
  induction ls as [|l ls IH]; cbn; [constructor|].
  destruct l; [discriminate| |]; intros H; constructor; auto.
Qed.

Lemma diagnostic_text (failedCities : list string) :
  Advisor.diagnostic failedCities =
    "i could not get any weather data for any of the cities"
    ++ match failedCities with
       | [] => EmptyString
       | _ :: _ => newline ++ "Failed to get weather data for: " ++ Join failedCities ", "
       end
    ++ newline ++ "Please check the city names and try again.".
Proof.
  unfold Advisor.diagnostic. destruct failedCities as [|c cs]; [reflexivity|].
  cbn [length Nat.ltb Nat.leb]. unfold newline. cbn -[Join].
  rewrite append_empty_r, ?append_assoc. reflexivity.
Qed.

(** C2. When no city of a streaming request yields an observation (each
    one fails, or there is none), [StreamAdvice] hands exactly one
    chunk to the stream, marked complete and carrying the diagnostic
    text, which is not empty, and makes no call to the generator. The
    text lists the failed cities in the order of the request, one entry
    per city: the place name for a failed resolution, the place name
    followed by "(weather failed)" for a failed weather fetch. With no
    city in the request there is no such list in the text. *)
Theorem StreamAdvice_no_data (req : AdvisorRequest) (w : W) :
  observations (value (lookupAll (Cities req) w)) = [] ->
  let ls := value (lookupAll (Cities req) w) in
  let r := Advisor.StreamAdvice req w in
  sent (events r)
    = [{| Chunk := Advisor.diagnostic (failures ls); IsComplete := true |}]
  /\ Advisor.diagnostic (failures ls) <> EmptyString
  /\ generator_calls (events r) = []
  /\ Advisor.diagnostic (failures ls) =
       "i could not get any weather data for any of the cities"
       ++ match failures ls with
          | [] => EmptyString
          | _ :: _ => newline ++ "Failed to get weather data for: " ++ Join (failures ls) ", "
          end
       ++ newline ++ "Please check the city names and try again."
  /\ map lookup_city ls = Cities req
  /\ Forall2 (fun l entry =>
                match l with
                | Resolved _ _ => False
                | GeocodeFailed city _ => entry = Location city
                | WeatherFailed city _ => entry = Location city ++ " (weather failed)"
                end) ls (failures ls)
  /\ (Cities req = [] ->
      Advisor.diagnostic (failures ls) =
        "i could not get any weather data for any of the cities"
        ++ newline ++ "Please check the city names and try again.").
Proof.
  intros Hobs. cbn zeta.
  pose proof (StreamAdvice_run req w) as H. cbn zeta in H. rewrite Hobs in H.
  destruct H as (_ & He).
  destruct (quiet_silent _ (lookupAll_events (Cities req) w)) as (Hg & Hs & _).
  rewrite He, sent_app, generator_calls_app, Hg, Hs.
  split; [reflexivity|]. split; [rewrite diagnostic_text; discriminate|].
  split; [reflexivity|]. split; [apply diagnostic_text|].
  split; [apply lookupAll_cities|]. split; [apply failures_entries; exact Hobs|].
  intros Hc. rewrite Hc. reflexivity.
Qed.

Lemma observations_resolved (ls : list Lookup) :
  observations ls =
    flat_map (fun l => match l with
                       | Resolved city weatherResp => [Advisor.weatherInfo city weatherResp]
                       | _ => []
                       end) ls.
Proof.
  induction ls as [|l ls IH]; [reflexivity|]. destruct l; cbn; rewrite IH; reflexivity.
Qed.

Lemma streamAdviceGeneration_prompt_text (weatherData : list string) :
  Advisor.streamAdviceGeneration_prompt weatherData =
    "Weather advisor. Based on this data provide practical advice: "
    ++ Join weatherData newline
    ++ " Include: summary, clothing advice, activity suggestions, warnings. Keep it concise.".
Proof. unfold Advisor.streamAdviceGeneration_prompt. cbn -[Join]. reflexivity. Qed.

(** C3. When at least one city of a streaming request yields an
    observation, the generator is called once, with the streaming
    prompt built from the summary lines of the observations: one line
    for each city that was resolved and has weather, in the order of
    the request, and nothing for a city that failed. Every city of the
    request is looked up, a failed one does not end the loop. *)
Theorem StreamAdvice_prompt (req : AdvisorRequest) (w : W) :
  observations (value (lookupAll (Cities req) w)) <> [] ->
  let ls := value (lookupAll (Cities req) w) in
  let r := Advisor.StreamAdvice req w in
  generator_calls (events r)
    = [EvGenerateContentStream "gemini-2.5-pro"
         (Advisor.streamAdviceGeneration_prompt (observations ls))]
  /\ Advisor.streamAdviceGeneration_prompt (observations ls) =
       "Weather advisor. Based on this data provide practical advice: "
       ++ Join (observations ls) newline
       ++ " Include: summary, clothing advice, activity suggestions, warnings. Keep it concise."
  /\ observations ls =
       flat_map (fun l => match l with
                          | Resolved city weatherResp =>
                              [Advisor.weatherInfo city weatherResp]
                          | _ => []
                          end) ls
  /\ map lookup_city ls = Cities req
  /\ exists rest, events r = (events (lookupAll (Cities req) w) ++ rest)%list.
Proof.
  intros Hobs. cbn zeta.
  pose proof (StreamAdvice_run req w) as H. cbn zeta in H.
  destruct (observations _) as [|line lines] eqn:E; [contradiction|].
  destruct H as (_ & He). rewrite He, streamAdviceGeneration_run. cbn [events].
  destruct (relay_events_sends
              (pending (fst (GenerateContentStream "gemini-2.5-pro"
                 (Advisor.streamAdviceGeneration_prompt (line :: lines))
                 (after (lookupAll (Cities req) w)))))
              (stop (fst (GenerateContentStream "gemini-2.5-pro"
                 (Advisor.streamAdviceGeneration_prompt (line :: lines))
                 (after (lookupAll (Cities req) w)))))
              (snd (GenerateContentStream "gemini-2.5-pro"
                 (Advisor.streamAdviceGeneration_prompt (line :: lines))
                 (after (lookupAll (Cities req) w))))) as (msgs & Hm).
  rewrite Hm.
  destruct (quiet_silent _ (lookupAll_events (Cities req) w)) as (Hg & _).
  destruct (sends_silent msgs) as (Hgs & _).
  split.
  { rewrite generator_calls_app, Hg. cbn [app]. unfold generator_calls in *.
    cbn [filter is_generator_call]. rewrite filter_app, Hgs. reflexivity. }
  split; [apply streamAdviceGeneration_prompt_text|].
  split; [rewrite <- E; apply observations_resolved|].
  split; [apply lookupAll_cities|]. eauto.
Qed.

Lemma fragment_chunks_incomplete (done : list string) :
  Forall (fun m => IsComplete m = false) (map fragment_chunk done).
Proof. induction done; cbn; constructor; auto. Qed.

(** C4. In the relay loop, the terminal chunk is the translation of the
    end-of-data condition alone, which the loop recognises by the
    iterator's error containing "EOF" or "iterator stopped". At such an
    error the loop hands the terminal chunk to the stream; at any other
    error it stops at once, handing nothing more to the stream, and
    returns the error "streaming failed: ..."; in a run whose iterator
    ends with such an error no chunk marked complete is handed to the
    stream at all. *)
Theorem relay_end_of_data_only
    (responses : list GenerateContentResponse) (err : error) (w : W) :
  let r := Advisor.relay responses err w in
  ((exists m, In m (sent (events r)) /\ IsComplete m = true) -> end_of_data err = true)
  /\ (end_of_data err = true ->
      Advisor.relay [] err w = Advisor.send terminal_chunk w)
  /\ (end_of_data err = false ->
      Advisor.relay [] err w = mkRun (Some ("streaming failed: " ++ err)) [] w
      /\ Forall (fun m => IsComplete m = false) (sent (events r))
      /\ (value r = Some ("streaming failed: " ++ err)
          \/ exists cause, value r = Some ("failed to send chunk: " ++ cause))).
Proof.
  cbn zeta.
  assert (Hstop : Advisor.relay [] err w =
                  if end_of_data err then Advisor.send terminal_chunk w
                  else mkRun (Some ("streaming failed: " ++ err)) [] w).
  { cbn [Advisor.relay]. fold (end_of_data err).
    destruct (end_of_data err); [reflexivity|].
    unfold ret. cbn. rewrite append_empty_r. reflexivity. }
  assert (Hinc : forall done m,
             In m (map fragment_chunk done) -> IsComplete m = true -> False).
  { intros done m Hin Hm.
    pose proof (fragment_chunks_incomplete done) as F.
    rewrite Forall_forall in F. rewrite (F m Hin) in Hm. discriminate. }
  destruct (relay_run responses err w)
    as (done & todo & _ & [w' _ Heod He _|_ Heod He Hv|cause He Hv]).
  - rewrite Heod in *. repeat split; auto; discriminate.
  - rewrite Heod in *. rewrite He, sent_sends.
    split; [intros (m & Hin & Hm); destruct (Hinc _ _ Hin Hm)|].
    split; [discriminate|]. intros _.
    repeat split; auto using fragment_chunks_incomplete.
  - rewrite He, sent_sends.
    split; [intros (m & Hin & Hm); destruct (Hinc _ _ Hin Hm)|].
    split; [intros E; rewrite E in Hstop; exact Hstop|].
    intros E. rewrite E in Hstop.
    repeat split; eauto using fragment_chunks_incomplete.
Qed.

(** C5. In a streaming call that returns without error, the chunks
    handed to the stream are the generator's fragments, one chunk each,
    in the order the iterator produced them, followed by the terminal
    chunk, whose text is empty; or, when there was no observation, the
    diagnostic chunk alone. In both cases one chunk is marked complete,
    and it is the last. *)
Theorem StreamAdvice_chunks (req : AdvisorRequest) (w : W) :
  value (Advisor.StreamAdvice req w) = None ->
  let ls := lookupAll (Cities req) w in
  let chunks := sent (events (Advisor.StreamAdvice req w)) in
  match observations (value ls) with
  | [] =>
      chunks = [{| Chunk := Advisor.diagnostic (failures (value ls));
                   IsComplete := true |}]
  | _ :: _ =>
      let it := fst (GenerateContentStream "gemini-2.5-pro"
                       (Advisor.streamAdviceGeneration_prompt (observations (value ls)))
                       (after ls)) in
      end_of_data (stop it) = true
      /\ chunks = (map fragment_chunk (fragments (pending it))
                   ++ [{| Chunk := EmptyString; IsComplete := true |}])%list
  end
  /\ exists before last,
       chunks = (before ++ [last])%list
       /\ IsComplete last = true
       /\ Forall (fun m => IsComplete m = false) before.
Proof.
  intros Hnil. cbn zeta.
  pose proof (StreamAdvice_run req w) as H. cbn zeta in H.
  destruct (quiet_silent _ (lookupAll_events (Cities req) w)) as (_ & Hs & _).
  destruct (observations _) as [|line lines] eqn:E.
  - destruct H as (_ & He). rewrite He, sent_app, Hs. cbn.
    split; [reflexivity|].
    eexists [], _. cbn. repeat split. constructor.
  - destruct H as (Hv & He). rewrite Hnil in Hv.
    rewrite He, streamAdviceGeneration_run in *. cbn [value events] in *.
    match goal with
    | _ : context [Advisor.relay ?rs ?e ?w'] |- _ =>
        destruct (relay_run rs e w')
          as (done & todo & Hf & [w'' Ht Heod Her _|_ _ _ Hvr|cause _ Hvr])
    end; try (rewrite Hvr in Hv; discriminate).
    subst todo. rewrite app_nil_r in Hf. rewrite Her, Hf.
    rewrite sent_app, Hs. cbn [app sent]. rewrite sent_app, sent_sends.
    cbn [sent app]. rewrite app_nil_r.
    split; [split; [exact Heod|reflexivity]|].
    exists (map fragment_chunk done), terminal_chunk.
    repeat split. subst done. apply fragment_chunks_incomplete.
Qed.

(** The chunks of one response are the text parts of all its
    candidates. *)
Lemma relay_candidates_all (cands : list Candidate) (w : W) :
  value (Advisor.relay_candidates cands w) = None ->
  sent (events (Advisor.relay_candidates cands w))
    = map fragment_chunk (flat_map (fun cand => texts (Parts (Content cand))) cands).
Proof.
  intros Hv.
  destruct (relay_candidates_run cands w) as (done & todo & Ht & He & Hr).
  cbn zeta in *. rewrite Hv in Hr. subst todo.
  rewrite He, sent_sends, Ht, app_nil_r. reflexivity.
Qed.

(** C10. The two paths read a response of several candidates
    differently. [generateAdvice] returns the text parts of the first
    candidate, concatenated, whatever the others hold, and passes over
    parts that are not text. The relay loop hands the text parts of
    every candidate of a response to the stream, one chunk each. *)
Theorem candidates_first_or_all
    (weatherData : list string) (w : W) (resp : GenerateContentResponse)
    (first : Candidate) (others : list Candidate) (w' : W) :
  fst (GenerateContent "gemini-2.5-flash"
         (Advisor.generateAdvice_prompt weatherData) w) = Ok resp ->
  Candidates resp = first :: others ->
  value (Advisor.relay_candidates (Candidates resp) w') = None ->
  value (Advisor.generateAdvice weatherData w)
    = Ok (String.concat EmptyString (texts (Parts (Content first))))
  /\ sent (events (Advisor.relay_candidates (Candidates resp) w'))
     = map fragment_chunk
         (texts (Parts (Content first))
          ++ flat_map (fun cand => texts (Parts (Content cand))) others).
Proof.
  intros Hg Hc Hv. split.
  - rewrite generateAdvice_run. cbn [value]. rewrite Hg, Hc.
    rewrite writeTexts_concat. reflexivity.
  - rewrite (relay_candidates_all _ _ Hv), Hc. reflexivity.
Qed.

End StreamingProperties.

Section Metrics.

Context {W : Type} {svc : Collaborators W}.

Lemma defer_events {A} (body : M W A) (w : W) :
  events (defer Advisor.ObserveDuration body w)
  = (events (body w) ++ [EvObserveDuration])%list.
Proof. reflexivity. Qed.

Lemma getAdvice_metrics (req : AdvisorRequest) (w : W) :
  let u := Advisor.getAdvice req w in
  counted (events u) = [status_of (value u)] /\ samples (events u) = 1.
Proof.
  cbn zeta. pose proof (getAdvice_run req w) as H. cbn zeta in H.
  destruct (first_failure _) as [f|].
  - destruct H as (Hv & _ & _ & Hc & Hs). rewrite Hv, Hc, Hs. auto.
  - destruct H as (Hv & He & _). rewrite Hv, He.
    destruct (quiet_silent _ (lookupAll_events (Cities req) w)) as (_ & _ & Hc & Hs).
    rewrite !counted_app, !samples_app, Hc, Hs, generateAdvice_run. cbn [value events].
    destruct (fst (GenerateContent _ _ _)) as [resp|err]; [destruct (Candidates resp)|];
      cbn; auto.
Qed.

Lemma StreamAdvice_metrics (req : AdvisorRequest) (w : W) :
  let s := Advisor.StreamAdvice req w in
  counted (events s) = [stream_status (value s)] /\ samples (events s) = 1
  /\ match value s with
     | None => True
     | Some e => stream_error_cause req w e
     end.
Proof.
  cbn zeta. pose proof (StreamAdvice_run req w) as H. cbn zeta in H.
  destruct (quiet_silent _ (lookupAll_events (Cities req) w)) as (_ & _ & Hc & Hs).
  destruct (observations _) as [|line lines].
  - destruct H as (Hv & He). rewrite Hv, He, counted_app, samples_app, Hc, Hs.
    repeat split. destruct (fst (Send _ _)) as [e|] eqn:E; [|exact I].
    left. eauto.
  - destruct H as (Hv & He). rewrite Hv, He, streamAdviceGeneration_run.
    cbn [value events].
    match goal with
    | |- context [Advisor.relay ?rs ?e ?w'] =>
        destruct (relay_run rs e w')
          as (done & todo & _ & [w'' _ _ Her Hvr|_ Heod Her Hvr|cause Her Hvr])
    end; rewrite Her, Hvr;
      rewrite !counted_app, !samples_app, Hc, Hs; cbn [app counted samples];
      match goal with
      | |- context [sends ?msgs] => destruct (sends_silent msgs) as (_ & Hcs & Hss)
      end; rewrite Hcs, Hss.
    + destruct (fst (Send terminal_chunk w'')) as [e|] eqn:E; repeat split.
      right; left. eauto.
    + repeat split. right; right; right. eauto.
    + repeat split. right; right; left. exists cause. reflexivity.
Qed.

(** C7. Every unary call and every streaming call counts one outcome,
    labelled "success" or "error", and records one latency sample, the
    last thing it does, wherever it returns. The label is "success"
    when the call returns without error, which for a streaming call
    includes the one that sent the diagnostic chunk, and "error" when
    it returns an error; a streaming call returns an error only when
    the stream refused a chunk or the iterator failed. *)
Theorem one_outcome_one_sample (req : AdvisorRequest) (w : W) :
  let u := Advisor.getAdvice req w in
  let s := Advisor.StreamAdvice req w in
  counted (events u) = [status_of (value u)]
  /\ samples (events u) = 1
  /\ counted (events s) = [stream_status (value s)]
  /\ samples (events s) = 1
  /\ (exists evs, events u = (evs ++ [EvObserveDuration])%list)
  /\ (exists evs, events s = (evs ++ [EvObserveDuration])%list)
  /\ match value s with
     | None => True
     | Some e => stream_error_cause req w e
     end.
Proof.
  cbn zeta.
  destruct (getAdvice_metrics req w) as (Hu1 & Hu2).
  destruct (StreamAdvice_metrics req w) as (Hs1 & Hs2 & Hs3).
  repeat split; auto.
  - unfold Advisor.getAdvice. rewrite defer_events. eauto.
  - unfold Advisor.StreamAdvice. rewrite defer_events. eauto.
Qed.

End Metrics.

Section Prompts.

Context {W : Type} {svc : Collaborators W}.

Lemma weatherInfo_text (city : CityData) (weatherResp : WeatherResponse) :
  Advisor.weatherInfo city weatherResp =
    "City: " ++ Location city
    ++ ", Temp: " ++ format_f1 (Temperature weatherResp) ++ degree
    ++ "C, Condition: " ++ Description weatherResp
    ++ ", Humidity: " ++ itoa (Humidity weatherResp)
    ++ "%, Wind: " ++ format_f1 (WindSpeed weatherResp) ++ " m/s".
Proof.
  unfold Advisor.weatherInfo. cbn -[format_f1 itoa]. reflexivity.
Qed.

Lemma generateAdvice_prompt_text (weatherData : list string) :
  Advisor.generateAdvice_prompt weatherData =
    "Weather advisor. Based on this data provide practical advice: "
    ++ Join weatherData newline
    ++ " Include: summary, clothing advice, activity suggestions, places to visit if good weather, warnings. Keep it concise.".
Proof. unfold Advisor.generateAdvice_prompt. cbn -[Join]. reflexivity. Qed.

(** C6. The prompt of either mode is a fixed template around the
    summary lines, joined by line feeds, and each line reads
    "City: <location>, Temp: <temperature, one decimal>(degree sign)C,
    Condition: <description>, Humidity: <humidity>%, Wind: <wind speed,
    one decimal> m/s". The templates begin alike and both ask for a
    summary, clothing advice, activity suggestions and warnings, and to
    be concise; the unary one asks for places to visit if good weather
    as well, the streaming one does not. These are the prompts the
    generator is called with: the unary one when no city failed, the
    streaming one when some city has an observation. *)
Theorem prompt_format (req : AdvisorRequest) (w : W) :
  let head := "Weather advisor. Based on this data provide practical advice: " in
  let unary_tail := " Include: summary, clothing advice, activity suggestions, places to visit if good weather, warnings. Keep it concise." in
  let stream_tail := " Include: summary, clothing advice, activity suggestions, warnings. Keep it concise." in
  let ls := value (lookupAll (Cities req) w) in
  (forall city weatherResp,
      Advisor.weatherInfo city weatherResp =
        "City: " ++ Location city
        ++ ", Temp: " ++ format_f1 (Temperature weatherResp) ++ degree
        ++ "C, Condition: " ++ Description weatherResp
        ++ ", Humidity: " ++ itoa (Humidity weatherResp)
        ++ "%, Wind: " ++ format_f1 (WindSpeed weatherResp) ++ " m/s")
  /\ (forall weatherData,
         Advisor.generateAdvice_prompt weatherData
         = head ++ Join weatherData newline ++ unary_tail)
  /\ (forall weatherData,
         Advisor.streamAdviceGeneration_prompt weatherData
         = head ++ Join weatherData newline ++ stream_tail)
  /\ Contains unary_tail "places to visit if good weather" = true
  /\ Contains stream_tail "places to visit" = false
  /\ forallb (fun ask => Contains unary_tail ask && Contains stream_tail ask)
       ["summary"; "clothing advice"; "activity suggestions"; "warnings";
        "Keep it concise"] = true
  /\ generator_calls (events (Advisor.getAdvice req w)) =
       match first_failure ls with
       | Some _ => []
       | None => [EvGenerateContent "gemini-2.5-flash"
                    (Advisor.generateAdvice_prompt (observations ls))]
       end
  /\ generator_calls (events (Advisor.StreamAdvice req w)) =
       match observations ls with
       | [] => []
       | _ :: _ => [EvGenerateContentStream "gemini-2.5-pro"
                      (Advisor.streamAdviceGeneration_prompt (observations ls))]
       end.
Proof.
  cbn zeta.
  split; [apply weatherInfo_text|].
  split; [apply generateAdvice_prompt_text|].
  split; [apply streamAdviceGeneration_prompt_text|].
  split; [reflexivity|]. split; [reflexivity|]. split; [reflexivity|].
  destruct (quiet_silent _ (lookupAll_events (Cities req) w)) as (Hg & _).
  split.
  - pose proof (getAdvice_run req w) as H. cbn zeta in H.
    destruct (first_failure _) as [f|].
    + destruct H as (_ & H & _). exact H.
    + destruct H as (_ & He & _).
      rewrite He, generateAdvice_run, !generator_calls_app, Hg. reflexivity.
  - pose proof (StreamAdvice_run req w) as H. cbn zeta in H.
    destruct (observations _) as [|line lines].
    + destruct H as (_ & He). rewrite He, generator_calls_app, Hg. reflexivity.
    + destruct H as (_ & He). rewrite He, streamAdviceGeneration_run. cbn [events].
      match goal with
      | |- context [Advisor.relay ?rs ?e ?w'] =>
          destruct (relay_events_sends rs e w') as (msgs & Hm)
      end.
      rewrite Hm. destruct (sends_silent msgs) as (Hgs & _).
      rewrite generator_calls_app, Hg. cbn [app]. unfold generator_calls in *.
      cbn [filter is_generator_call]. rewrite filter_app, Hgs. reflexivity.
Qed.

End Prompts.

Section Variants.

Context {W : Type} {svc : Collaborators W}.

Lemma append_cancel_l (a x y : string) : a ++ x = a ++ y -> x = y.
Proof.
  induction a as [|c a IH]; cbn; [auto|]. intros H. injection H. exact IH.
Qed.

(** The summary lines of the two variants differ for every city and
    every observation, at the bytes after the temperature. *)
Lemma weatherInfo_variants_differ (city : CityData) (weatherResp : WeatherResponse) :
  AdvisorCopy.weatherInfo city weatherResp <> Advisor.weatherInfo city weatherResp.
Proof.
  unfold AdvisorCopy.weatherInfo, Advisor.weatherInfo.
  cbn -[format_f1 itoa]. intros H. injection H as H.
  apply append_cancel_l in H. injection H as H.
  apply append_cancel_l in H. discriminate H.
Qed.

(** Without a city the two variants run alike. *)
Lemma getAdvice_variants_no_cities (w : W) :
  AdvisorCopy.getAdvice {| Cities := [] |} w = Advisor.getAdvice {| Cities := [] |} w.
Proof. reflexivity. Qed.

End Variants.

(** C8. The two variants of [getAdvice] do not build the same prompt. On
    a request for Paris, resolved and with weather, the first calls the
    generator with a line that has the degree sign, bytes C2 B0, before
    the "C"; the second with the bytes C3 82 C2 B0 in its place. With a
    generator that answers both alike the two return the same advice. *)
Theorem getAdvice_variants_prompts :
  let req := Demo.request ["Paris"] in
  let head := "Weather advisor. Based on this data provide practical advice: " in
  let tail := " Include: summary, clothing advice, activity suggestions, places to visit if good weather, warnings. Keep it concise." in
  let first := Advisor.getAdvice (svc := Demo.replies) req 0 in
  let second := AdvisorCopy.getAdvice (svc := Demo.replies) req 0 in
  generator_calls (events first)
    = [EvGenerateContent "gemini-2.5-flash"
         (head ++ "City: Paris, Temp: 22.5" ++ degree
          ++ "C, Condition: clear sky, Humidity: 40%, Wind: 3.2 m/s" ++ tail)]
  /\ generator_calls (events second)
     = [EvGenerateContent "gemini-2.5-flash"
          (head ++ "City: Paris, Temp: 22.5" ++ degree_twice_encoded
           ++ "C, Condition: clear sky, Humidity: 40%, Wind: 3.2 m/s" ++ tail)]
  /\ generator_calls (events first) <> generator_calls (events second)
  /\ value first = value second
  /\ value first = Ok {| Advice := "Wear a light jacket." |}.
Proof.
  cbn zeta. split; [vm_compute; reflexivity|]. split; [vm_compute; reflexivity|].
  split; [vm_compute; discriminate|]. split; vm_compute; reflexivity.
Qed.

(** ** The properties on the concrete world *)

Section Runs.

Let run_unary := Advisor.getAdvice (svc := Demo.replies).
Let run_stream := Advisor.StreamAdvice (svc := Demo.replies).

(** The line of scenario A. *)
Example paris_line :
  Advisor.weatherInfo {| Location := "Paris" |} Demo.clear_sky
  = "City: Paris, Temp: 22.5" ++ degree
    ++ "C, Condition: clear sky, Humidity: 40%, Wind: 3.2 m/s".
Proof. reflexivity. Qed.

Example format_f1_samples :
  map format_f1
    [S754_finite false 45 (-1); S754_finite false 3602879701896397 (-50);
     S754_finite false 1 (-2); S754_finite false 3 (-2); S754_finite true 1 (-8);
     S754_finite true 5 3; S754_zero false; S754_nan; S754_infinity false]
  = ["22.5"; "3.2"; "0.2"; "0.8"; "-0.0"; "-40.0"; "0.0"; "NaN"; "+Inf"].
Proof. reflexivity. Qed.

Example QueryEscape_samples :
  map QueryEscape ["New York"; "a/b&c=d"; "x-y_z.~"]
  = ["New+York"; "a%2Fb%26c%3Dd"; "x-y_z.~"].
Proof. reflexivity. Qed.

Example end_of_data_samples :
  map end_of_data ["EOF"; "unexpected EOF"; "iterator stopped";
                   "no more items in iterator"; "rpc error: connection reset"]
  = [true; true; true; false; false].
Proof. reflexivity. Qed.

(** Scenario B: the second city fails resolution, the stream has the
    fragments for the first and the terminal chunk. *)
Example stream_paris_atlantis :
  sent (events (run_stream (Demo.request ["Paris"; "Atlantis"]) 0))
  = [fragment_chunk "Sunny"; fragment_chunk " and"; fragment_chunk " mild.";
     fragment_chunk " Enjoy."; terminal_chunk]
  /\ counted (events (run_stream (Demo.request ["Paris"; "Atlantis"]) 0)) = ["success"].
Proof. split; vm_compute; reflexivity. Qed.

Lemma getAdvice_fail_fast_witness :
  exists city cause,
    In city (Cities (Demo.request ["Paris"; "Atlantis"; "Null"]))
    /\ (first_failure (value (lookupAll (svc := Demo.replies)
                                (Cities (Demo.request ["Paris"; "Atlantis"; "Null"])) 0))
        = Some (GeocodeFailed city cause)
        /\ value (run_unary (Demo.request ["Paris"; "Atlantis"; "Null"]) 0)
           = Err ("geocoding failed for " ++ Location city ++ ": " ++ cause)
        \/ first_failure (value (lookupAll (svc := Demo.replies)
                                   (Cities (Demo.request ["Paris"; "Atlantis"; "Null"])) 0))
           = Some (WeatherFailed city cause)
        /\ value (run_unary (Demo.request ["Paris"; "Atlantis"; "Null"]) 0)
           = Err ("weather request failed for " ++ Location city ++ ": " ++ cause))
    /\ generator_calls (events (run_unary (Demo.request ["Paris"; "Atlantis"; "Null"]) 0)) = [].
Proof.
  apply (getAdvice_fail_fast (svc := Demo.replies)
           (Demo.request ["Paris"; "Atlantis"; "Null"]) 0
           (WeatherFailed {| Location := "Null" |} "no station in range")).
  - vm_compute. right. right. left. reflexivity.
  - reflexivity.
Defined.

Lemma StreamAdvice_no_data_witness :
  sent (events (run_stream (Demo.request ["Atlantis"; "Null"; "Gondor"]) 0))
  = [{| Chunk := "i could not get any weather data for any of the cities" ++ newline
                 ++ "Failed to get weather data for: Atlantis, Null (weather failed), Gondor"
                 ++ newline ++ "Please check the city names and try again.";
        IsComplete := true |}]
  /\ generator_calls (events (run_stream (Demo.request ["Atlantis"; "Null"; "Gondor"]) 0)) = [].
Proof.
  destruct (StreamAdvice_no_data (svc := Demo.replies)
              (Demo.request ["Atlantis"; "Null"; "Gondor"]) 0 eq_refl)
    as (Hs & _ & Hg & _).
  split; [exact Hs | exact Hg].
Defined.

Lemma StreamAdvice_prompt_witness :
  generator_calls (events (run_stream (Demo.request ["Atlantis"; "Paris"; "Null"]) 0))
  = [EvGenerateContentStream "gemini-2.5-pro"
       ("Weather advisor. Based on this data provide practical advice: "
        ++ "City: Paris, Temp: 22.5" ++ degree
        ++ "C, Condition: clear sky, Humidity: 40%, Wind: 3.2 m/s"
        ++ " Include: summary, clothing advice, activity suggestions, warnings. Keep it concise.")].
Proof.
  refine (proj1 (StreamAdvice_prompt (svc := Demo.replies)
                   (Demo.request ["Atlantis"; "Paris"; "Null"]) 0 _)).
  vm_compute. discriminate.
Defined.

Lemma relay_end_of_data_only_witness :
  let r := Advisor.relay (svc := Demo.replies) (pending Demo.piecewise)
             "rpc error: connection reset" 0 in
  end_of_data "rpc error: connection reset" = false
  /\ value r = Some "streaming failed: rpc error: connection reset"
  /\ Forall (fun m => IsComplete m = false) (sent (events r)).
Proof.
  cbn zeta. split; [reflexivity|].
  destruct (relay_end_of_data_only (svc := Demo.replies) (pending Demo.piecewise)
              "rpc error: connection reset" 0) as (_ & _ & H).
  destruct (H eq_refl) as (_ & Hf & _).
  split; [reflexivity | exact Hf].
Defined.

Lemma StreamAdvice_chunks_witness :
  value (run_stream (Demo.request ["Paris"]) 0) = None
  /\ sent (events (run_stream (Demo.request ["Paris"]) 0))
     = [fragment_chunk "Sunny"; fragment_chunk " and"; fragment_chunk " mild.";
        fragment_chunk " Enjoy."; terminal_chunk].
Proof.
  split; [reflexivity|].
  destruct (StreamAdvice_chunks (svc := Demo.replies) (Demo.request ["Paris"]) 0 eq_refl)
    as ((_ & Hc) & _).
  exact Hc.
Defined.

Lemma candidates_first_or_all_witness :
  value (Advisor.generateAdvice (svc := Demo.replies) [] 0) = Ok "Wear a light jacket."
  /\ sent (events (Advisor.relay_candidates (svc := Demo.replies)
                     (Candidates Demo.whole) 0))
     = [fragment_chunk "Wear "; fragment_chunk "a light jacket."; fragment_chunk "Stay in."].
Proof.
  exact (candidates_first_or_all (svc := Demo.replies) [] 0 Demo.whole
           (Demo.candidate [Text "Wear "; Blob "image/png" "89504e47";
                            Text "a light jacket."])
           [Demo.candidate [Text "Stay in."]] 0 eq_refl eq_refl eq_refl).
Defined.

End Runs.


(** ** Further properties: the geocoder *)

Section Escaping.

Lemma QueryEscape_alphabet_step (c : ascii) (rest : string) :
  string_forall is_query_safe (QueryEscape (String c rest))
  = string_forall is_query_safe (QueryEscape rest).
Proof. destruct c as [[] [] [] [] [] [] [] []]; reflexivity. Qed.

Lemma QueryEscape_alphabet (s : string) :
  string_forall is_query_safe (QueryEscape s) = true.
Proof.
  induction s as [|c rest IH]; [reflexivity|].
  rewrite QueryEscape_alphabet_step. exact IH.
Qed.

Lemma QueryUnescape_step (c : ascii) (rest : string) :
  QueryUnescape (QueryEscape (String c rest))
  = option_map (String c) (QueryUnescape (QueryEscape rest)).
Proof. destruct c as [[] [] [] [] [] [] [] []]; reflexivity. Qed.

(** Unescaping an escaped string gives the string back. *)
Lemma QueryUnescape_QueryEscape (s : string) :
  QueryUnescape (QueryEscape s) = Some s.
Proof.
  induction s as [|c rest IH]; [reflexivity|].
  rewrite QueryUnescape_step, IH. reflexivity.
Qed.

Lemma QueryEscape_injective (a b : string) :
  QueryEscape a = QueryEscape b -> a = b.
Proof.
  intros H. apply (f_equal QueryUnescape) in H.
  rewrite !QueryUnescape_QueryEscape in H. injection H. auto.
Qed.

Lemma length_append (a b : string) :
  String.length (a ++ b) = String.length a + String.length b.
Proof. induction a as [|c a IH]; cbn; [|rewrite IH]; reflexivity. Qed.

Lemma append_cancel_r (a b s : string) : a ++ s = b ++ s -> a = b.
Proof.
  revert b. induction a as [|c a IH]; intros [|d b] H; cbn in H.
  - reflexivity.
  - apply (f_equal String.length) in H. cbn in H. rewrite length_append in H. lia.
  - apply (f_equal String.length) in H. cbn in H. rewrite length_append in H. lia.
  - injection H as -> H. f_equal. apply IH. exact H.
Qed.

End Escaping.

Section Geocoder.

Context {W : Type} {svc : Collaborators W}.

Lemma geocodeCity_run (city : CityData) (w : W) :
  let g := httpGet (geocode_url city) w in
  Advisor.geocodeCity city w =
    mkRun
      match fst g with
      | Err err => Err ("geocoding failed: " ++ err)
      | Ok resp =>
          if (StatusCode resp =? 200)%Z then
            match Body resp with
            | Err err => Err ("JSON decoding failed: " ++ err)
            | Ok geo =>
                match Results geo with
                | [] => Err ("no results found for city: " ++ Location city)
                | first :: _ => Ok (geo_Latitude first, geo_Longitude first)
                end
            end
          else Err ("geocoding failed: " ++ Status resp)
      end
      [EvHttpGet (geocode_url city)]
      (snd g).
Proof.
  cbn zeta. unfold Advisor.geocodeCity, bind, call, geocode_url.
  cbn -[QueryEscape].
  destruct (fst (httpGet _ w)) as [resp|err]; cbn.
  - unfold StatusOK. destruct (StatusCode resp =? 200)%Z; cbn.
    + destruct (Body resp) as [geo|err]; cbn.
      * destruct (Results geo); cbn; rewrite ?append_empty_r; reflexivity.
      * rewrite append_empty_r. reflexivity.
    + rewrite append_empty_r. reflexivity.
  - rewrite append_empty_r. reflexivity.
Qed.


(** The place name cannot reach outside the [q] parameter of the
    request: the URL is the fixed prefix, the escaped name and the fixed
    suffix, and the escaped name is made of unreserved bytes, plus and
    percent signs only, so that no separator of a URL occurs in it. *)
Theorem geocode_url_query_safe (city : CityData) (w : W) :
  http_requests (events (Advisor.geocodeCity city w))
  = ["https://nominatim.openstreetmap.org/search?q="
     ++ QueryEscape (Location city) ++ "&format=json&limit=1"]
  /\ string_forall is_query_safe (QueryEscape (Location city)) = true
  /\ forallb (fun c => negb (is_query_safe c))
       ["&"; "="; "#"; "?"; "/"; ":"; " "; ";"; "@"; "010"; "013"; "000"]%char = true.
Proof.
  split; [rewrite geocodeCity_run; reflexivity|].
  split; [apply QueryEscape_alphabet|reflexivity].
Qed.

(** Two place names are requested by the same URL only if they are the
    same name. *)
Theorem geocode_url_injective (a b : CityData) :
  geocode_url a = geocode_url b -> Location a = Location b.
Proof.
  unfold geocode_url. intros H.
  apply append_cancel_l in H. apply append_cancel_r in H.
  apply QueryEscape_injective. exact H.
Qed.

Lemma http_requests_app (a b : list Event) :
  http_requests (a ++ b) = (http_requests a ++ http_requests b)%list.
Proof.
  induction a as [|ev a IH]; [reflexivity|].
  destruct ev; cbn; rewrite ?IH; reflexivity.
Qed.

Lemma weather_requests_app (a b : list Event) :
  weather_requests (a ++ b) = (weather_requests a ++ weather_requests b)%list.
Proof.
  induction a as [|ev a IH]; [reflexivity|].
  destruct ev; cbn; rewrite ?IH; reflexivity.
Qed.

Lemma sends_no_requests (msgs : list StreamAdviceResponse) :
  http_requests (sends msgs) = [] /\ weather_requests (sends msgs) = [].
Proof. unfold sends. induction msgs as [|m msgs IH]; cbn; auto. Qed.

Lemma lookupCity_requests (city : CityData) (w : W) :
  let r := lookupCity city w in
  http_requests (events r) = [geocode_url city]
  /\ length (weather_requests (events r))
     = (if is_geocode_failure (value r) then 0 else 1)
  /\ lookup_city (value r) = city.
Proof.
  cbn zeta. unfold lookupCity, bind. rewrite geocodeCity_run. cbn [value events after].
  match goal with
  | |- context [match ?x with Ok _ => _ | Err _ => _ end] => destruct x as [[lat lon]|err]
  end; cbn; [|auto].
  destruct (fst (GetCurrentWeather _ _)); cbn; auto.
Qed.

Lemma lookupAll_requests (cities : list CityData) (w : W) :
  let r := lookupAll cities w in
  http_requests (events r) = map geocode_url cities
  /\ length (weather_requests (events r))
     = length (filter (fun l => negb (is_geocode_failure l)) (value r)).
Proof.
  cbn zeta. revert w. induction cities as [|city rest IH]; intros w; [auto|].
  cbn [lookupAll]. unfold bind. cbn [value events after].
  destruct (lookupCity_requests city w) as (Hh & Hw & _). cbn zeta in *.
  destruct (IH (after (lookupCity city w))) as (IHh & IHw).
  unfold ret. cbn [value events after].
  rewrite !app_nil_r, http_requests_app, weather_requests_app, length_app, Hh, Hw, IHh, IHw.
  cbn [map filter app]. split; [reflexivity|].
  destruct (is_geocode_failure _); reflexivity.
Qed.

End Geocoder.

(** ** Further properties: the unary path *)

Section UnaryRuns.

Context {W : Type} {svc : Collaborators W}.

Lemma observations_length (ls : list Lookup) :
  first_failure ls = None -> length (observations ls) = length ls.
Proof.
  unfold first_failure. induction ls as [|l ls IH]; [reflexivity|].
  destruct l; cbn; try discriminate. intros H. rewrite (IH H). reflexivity.
Qed.

Lemma lookupAll_length (cities : list CityData) (w : W) :
  length (value (lookupAll cities w)) = length cities.
Proof. rewrite <- (lookupAll_cities cities w) at 2. rewrite length_map. reflexivity. Qed.

(** Past a failed city the loop of [getAdvice] does not look: what
    follows it in the request changes nothing. *)
Lemma getAdvice_loop_stops (cities post : list CityData) (weatherData : list string) (w : W) :
  first_failure (value (lookupAll cities w)) <> None ->
  Advisor.getAdvice_loop (cities ++ post) weatherData w
  = Advisor.getAdvice_loop cities weatherData w.
Proof.
  unfold first_failure.
  revert weatherData w. induction cities as [|city rest IH]; intros weatherData w.
  - cbn. congruence.
  - cbn. unfold lookupCity, bind. cbn.
    destruct (Advisor.geocodeCity city w) as [[[lat lon]|err] evs w1]; cbn; [|reflexivity].
    destruct (fst (GetCurrentWeather _ w1)) as [resp|err]; cbn; [|reflexivity].
    intros H. rewrite (IH _ _ H). reflexivity.
Qed.

(** A call of [getAdvice] is decided by the cities up to the first one
    that fails: the cities after it are not looked up, and the request
    with them removed has the same run, event by event. *)
Theorem getAdvice_stops_at_failure (cities post : list CityData) (w : W) :
  first_failure (value (lookupAll cities w)) <> None ->
  Advisor.getAdvice {| Cities := cities ++ post |} w
  = Advisor.getAdvice {| Cities := cities |} w.
Proof.
  intros H. unfold Advisor.getAdvice, defer, bind. cbn [Cities].
  rewrite (getAdvice_loop_stops _ _ _ _ H). reflexivity.
Qed.

Lemma getAdvice_loop_requests (cities : list CityData) (weatherData : list string) (w : W) :
  let l := Advisor.getAdvice_loop cities weatherData w in
  let tried := through_failure (value (lookupAll cities w)) in
  http_requests (events l) = map geocode_url (map lookup_city tried)
  /\ length (weather_requests (events l))
     = length (filter (fun l => negb (is_geocode_failure l)) tried).
Proof.
  cbn zeta. revert weatherData w. induction cities as [|city rest IH]; intros weatherData w.
  - cbn. auto.
  - cbn. unfold lookupCity, bind. rewrite geocodeCity_run. cbn [value events after].
    match goal with
    | |- context [match ?x with Ok _ => _ | Err _ => _ end] => destruct x as [[lat lon]|err]
    end; cbn; [|auto].
    destruct (fst (GetCurrentWeather _ _)) as [resp|err]; cbn; [|auto].
    match goal with
    | |- context [Advisor.getAdvice_loop rest ?wd ?w'] => destruct (IH wd w') as (Hh & Hw)
    end.
    rewrite Hh, Hw. auto.
Qed.

Lemma through_failure_prefix (ls : list Lookup) :
  exists later, ls = (through_failure ls ++ later)%list.
Proof.
  induction ls as [|l ls (later & IH)]; [exists []; reflexivity|].
  cbn. destruct (is_failure l).
  - exists ls. reflexivity.
  - exists later. cbn. rewrite <- IH. reflexivity.
Qed.

Lemma getAdvice_requests_of_loop (req : AdvisorRequest) (w : W) :
  http_requests (events (Advisor.getAdvice req w))
  = http_requests (events (Advisor.getAdvice_loop (Cities req) [] w))
  /\ weather_requests (events (Advisor.getAdvice req w))
     = weather_requests (events (Advisor.getAdvice_loop (Cities req) [] w)).
Proof.
  unfold Advisor.getAdvice, defer, bind. cbn [value events after].
  destruct (Advisor.getAdvice_loop (Cities req) [] w) as [[weatherData|e] evs w1];
    cbn [value events after].
  - rewrite generateAdvice_run. cbn [value events after].
    destruct (fst (GenerateContent _ _ _)) as [resp|err]; [destruct (Candidates resp)|];
      cbn; rewrite !http_requests_app, !weather_requests_app; cbn;
      rewrite !app_nil_r; auto.
  - cbn. rewrite !http_requests_app, !weather_requests_app. cbn.
    rewrite !app_nil_r. auto.
Qed.

(** The requests of a unary call: one to the geocoder for each city up
    to and including the first that fails, in the order of the request,
    and none for a later city; one to the weather service for each of
    these cities that the geocoder resolved. *)
Theorem getAdvice_requests (req : AdvisorRequest) (w : W) :
  let u := Advisor.getAdvice req w in
  let tried := through_failure (value (lookupAll (Cities req) w)) in
  http_requests (events u) = map geocode_url (map lookup_city tried)
  /\ length (weather_requests (events u))
     = length (filter (fun l => negb (is_geocode_failure l)) tried)
  /\ exists later, Cities req = (map lookup_city tried ++ later)%list.
Proof.
  cbn zeta.
  destruct (getAdvice_loop_requests (Cities req) [] w) as (Hh & Hw). cbn zeta in *.
  destruct (getAdvice_requests_of_loop req w) as (Eh & Ew).
  rewrite Eh, Ew, Hh, Hw. repeat split.
  destruct (through_failure_prefix (value (lookupAll (Cities req) w))) as (later & Hl).
  exists (map lookup_city later).
  rewrite <- map_app, <- Hl. symmetry. apply lookupAll_cities.
Qed.

(** When every city of the request resolves and has weather, [getAdvice]
    calls the generator once, after the lookups, with the unary prompt
    of one summary line per city, and returns the text of the reply's
    first candidate; a failed call and a reply without candidates come
    back as errors that begin "advice generation failed: ". *)
Theorem getAdvice_all_resolved (req : AdvisorRequest) (w : W) :
  first_failure (value (lookupAll (Cities req) w)) = None ->
  let ls := lookupAll (Cities req) w in
  let u := Advisor.getAdvice req w in
  let prompt := Advisor.generateAdvice_prompt (observations (value ls)) in
  let g := GenerateContent "gemini-2.5-flash" prompt (after ls) in
  length (observations (value ls)) = length (Cities req)
  /\ value u =
       match fst g with
       | Err err => Err ("advice generation failed: gemini API failed: " ++ err)
       | Ok resp =>
           match Candidates resp with
           | [] => Err "advice generation failed: no response generated"
           | first :: _ =>
               Ok {| Advice := String.concat EmptyString (texts (Parts (Content first))) |}
           end
       end
  /\ events u = (events ls ++ [EvGenerateContent "gemini-2.5-flash" prompt;
                               EvInc (status_of (value u)); EvObserveDuration])%list
  /\ after u = snd g.
Proof.
  intros Hnone. cbn zeta.
  pose proof (getAdvice_run req w) as H. cbn zeta in H. rewrite Hnone in H.
  destruct H as (Hv & He & Ha). rewrite Hv, He, Ha, generateAdvice_run.
  cbn [value events after].
  split; [rewrite (observations_length _ Hnone); apply lookupAll_length|].
  destruct (fst (GenerateContent _ _ _)) as [resp|err]; [destruct (Candidates resp)|];
    cbn [value]; rewrite ?writeTexts_concat; repeat split.
Qed.

(** A reply whose first candidate has no text part is not an error:
    [getAdvice] returns an empty advice and counts a success, whatever
    the other candidates hold. *)
Theorem getAdvice_empty_advice
    (req : AdvisorRequest) (w : W) (resp : GenerateContentResponse)
    (first : Candidate) (others : list Candidate) :
  first_failure (value (lookupAll (Cities req) w)) = None ->
  fst (GenerateContent "gemini-2.5-flash"
         (Advisor.generateAdvice_prompt (observations (value (lookupAll (Cities req) w))))
         (after (lookupAll (Cities req) w))) = Ok resp ->
  Candidates resp = first :: others ->
  texts (Parts (Content first)) = [] ->
  value (Advisor.getAdvice req w) = Ok {| Advice := EmptyString |}
  /\ counted (events (Advisor.getAdvice req w)) = ["success"].
Proof.
  intros Hnone Hg Hc Ht.
  pose proof (getAdvice_run req w) as H. cbn zeta in H. rewrite Hnone in H.
  destruct H as (Hv & He & _). rewrite Hv, He, generateAdvice_run. cbn [value events].
  rewrite Hg, Hc, writeTexts_concat, Ht.
  destruct (quiet_silent _ (lookupAll_events (Cities req) w)) as (_ & _ & Hcn & _).
  rewrite counted_app, Hcn. split; reflexivity.
Qed.

End UnaryRuns.

(** ** Further properties: the streaming path *)

Section StreamingRuns.

Context {W : Type} {svc : Collaborators W}.

(** The requests of a streaming call: one to the geocoder for every city
    of the request, in its order, whether or not earlier cities failed;
    one to the weather service for each city the geocoder resolved. *)
Theorem StreamAdvice_requests (req : AdvisorRequest) (w : W) :
  let s := Advisor.StreamAdvice req w in
  http_requests (events s) = map geocode_url (Cities req)
  /\ length (weather_requests (events s))
     = length (filter (fun l => negb (is_geocode_failure l))
                 (value (lookupAll (Cities req) w))).
Proof.
  cbn zeta. pose proof (StreamAdvice_run req w) as H. cbn zeta in H.
  destruct (lookupAll_requests (Cities req) w) as (Hh & Hw). cbn zeta in *.
  destruct (observations _) as [|line lines].
  - destruct H as (_ & He). rewrite He, http_requests_app, weather_requests_app, Hh.
    cbn. rewrite !app_nil_r. auto.
  - destruct H as (_ & He). rewrite He, streamAdviceGeneration_run. cbn [events].
    match goal with
    | |- context [Advisor.relay ?rs ?e ?w'] =>
        destruct (relay_events_sends rs e w') as (msgs & Hm)
    end.
    rewrite Hm. destruct (sends_no_requests msgs) as (Hsh & Hsw).
    rewrite !http_requests_app, !weather_requests_app. cbn.
    rewrite Hsh, Hsw, Hh. cbn. rewrite !app_nil_r. auto.
Qed.

(** In every streaming call that reaches the generator, however it ends,
    the chunks handed to the stream are fragments of the generator, in
    its order and without a gap, and the terminal chunk can only follow
    the last of them: a chunk marked complete is never followed by
    another chunk, and never sent while fragments are outstanding. *)
Theorem StreamAdvice_chunks_in_order (req : AdvisorRequest) (w : W) :
  observations (value (lookupAll (Cities req) w)) <> [] ->
  let ls := lookupAll (Cities req) w in
  let it := fst (GenerateContentStream "gemini-2.5-pro"
                   (Advisor.streamAdviceGeneration_prompt (observations (value ls)))
                   (after ls)) in
  let chunks := sent (events (Advisor.StreamAdvice req w)) in
  exists done todo,
    fragments (pending it) = (done ++ todo)%list
    /\ (chunks = map fragment_chunk done
        \/ todo = [] /\ end_of_data (stop it) = true
           /\ chunks = (map fragment_chunk done ++ [terminal_chunk])%list).
Proof.
  intros Hobs. cbn zeta.
  pose proof (StreamAdvice_run req w) as H. cbn zeta in H.
  destruct (quiet_silent _ (lookupAll_events (Cities req) w)) as (_ & Hs & _).
  destruct (observations _) as [|line lines] eqn:E; [contradiction|].
  destruct H as (_ & He). rewrite He, streamAdviceGeneration_run. cbn [events].
  match goal with
  | |- context [Advisor.relay ?rs ?e ?w'] =>
      destruct (relay_run rs e w')
        as (done & todo & Hf & [w'' Ht Heod Her _|_ _ Her _|cause Her _])
  end; exists done, todo; (split; [exact Hf|]);
    rewrite Her, sent_app, Hs; cbn [app sent]; rewrite sent_app, sent_sends;
    cbn [sent app]; rewrite app_nil_r; auto.
Qed.

Lemma relay_parts_unrefused (parts : list Part) (w : W) :
  (forall m w', fst (Send m w') = None) ->
  value (Advisor.relay_parts parts w) = None.
Proof.
  intros Hsend. revert w. induction parts as [|part rest IH]; intros w; [reflexivity|].
  destruct part; cbn [Advisor.relay_parts]; [|apply IH..].
  unfold bind, Advisor.send, call. cbn [value after]. rewrite Hsend. apply IH.
Qed.

Lemma relay_candidates_unrefused (cands : list Candidate) (w : W) :
  (forall m w', fst (Send m w') = None) ->
  value (Advisor.relay_candidates cands w) = None.
Proof.
  intros Hsend. revert w. induction cands as [|cand rest IH]; intros w; [reflexivity|].
  cbn [Advisor.relay_candidates]. unfold bind. cbn [value after].
  rewrite (relay_parts_unrefused _ _ Hsend). apply IH.
Qed.

Lemma relay_unrefused (responses : list GenerateContentResponse) (err : error) (w : W) :
  (forall m w', fst (Send m w') = None) ->
  end_of_data err = true ->
  value (Advisor.relay responses err w) = None.
Proof.
  intros Hsend Heod. revert w. induction responses as [|resp rest IH]; intros w.
  - cbn [Advisor.relay]. fold (end_of_data err). rewrite Heod.
    unfold Advisor.send, call. cbn [value]. apply Hsend.
  - cbn [Advisor.relay]. unfold bind. cbn [value after].
    rewrite (relay_candidates_unrefused _ _ Hsend). apply IH.
Qed.

(** Failures of cities alone never fail a streaming call: with a stream
    that accepts every chunk and a generator whose sequences end with
    the end of the data, [StreamAdvice] returns no error and counts a
    success for every request, whichever of its cities fail, all of them
    and none included. *)
Theorem StreamAdvice_tolerates_city_failures (req : AdvisorRequest) (w : W) :
  (forall m w', fst (Send m w') = None) ->
  (forall model prompt w',
      end_of_data (stop (fst (GenerateContentStream model prompt w'))) = true) ->
  value (Advisor.StreamAdvice req w) = None
  /\ counted (events (Advisor.StreamAdvice req w)) = ["success"].
Proof.
  intros Hsend Heod.
  assert (Hv : value (Advisor.StreamAdvice req w) = None).
  { pose proof (StreamAdvice_run req w) as H. cbn zeta in H.
    destruct (observations _) as [|line lines].
    - destruct H as (Hv & _). rewrite Hv. apply Hsend.
    - destruct H as (Hv & _). rewrite Hv, streamAdviceGeneration_run. cbn [value].
      rewrite (relay_unrefused _ _ _ Hsend (Heod _ _ _)). reflexivity. }
  split; [exact Hv|].
  destruct (StreamAdvice_metrics req w) as (Hc & _). rewrite Hc, Hv. reflexivity.
Qed.

Lemma relay_parts_refused (parts : list Part) (w : W) :
  (forall m w', fst (Send m w') <> None) ->
  let r := Advisor.relay_parts parts w in
  (value r = None /\ events r = [])
  \/ (value r <> None /\ exists m, events r = [EvSend m]).
Proof.
  intros Hsend. cbn zeta. revert w. induction parts as [|part rest IH]; intros w.
  - left. split; reflexivity.
  - destruct part as [text|mime data|name]; cbn [Advisor.relay_parts]; [|apply IH..].
    right. unfold bind, Advisor.send, call. cbn [value events after].
    destruct (fst (Send _ w)) as [e|] eqn:E; [|destruct (Hsend _ _ E)].
    cbn. split; [discriminate|eauto].
Qed.

Lemma relay_candidates_refused (cands : list Candidate) (w : W) :
  (forall m w', fst (Send m w') <> None) ->
  let r := Advisor.relay_candidates cands w in
  (value r = None /\ events r = [])
  \/ (value r <> None /\ exists m, events r = [EvSend m]).
Proof.
  intros Hsend. cbn zeta. revert w. induction cands as [|cand rest IH]; intros w.
  - left. split; reflexivity.
  - cbn [Advisor.relay_candidates]. unfold bind.
    pose proof (relay_parts_refused (Parts (Content cand)) w Hsend) as H1. cbn zeta in H1.
    destruct (Advisor.relay_parts (Parts (Content cand)) w) as [v1 e1 w1].
    cbn [value events after] in *.
    destruct H1 as [(-> & ->)|(Hv & m & ->)].
    + pose proof (IH w1) as H2.
      destruct (Advisor.relay_candidates rest w1) as [v2 e2 w2]. exact H2.
    + destruct v1 as [e|]; [|congruence]. right. cbn. split; [discriminate|eauto].
Qed.

Lemma relay_refused (responses : list GenerateContentResponse) (err : error) (w : W) :
  (forall m w', fst (Send m w') <> None) ->
  let r := Advisor.relay responses err w in
  value r <> None /\ (events r = [] \/ exists m, events r = [EvSend m]).
Proof.
  intros Hsend. cbn zeta. revert w. induction responses as [|resp rest IH]; intros w.
  - cbn [Advisor.relay]. destruct (_ || _).
    + unfold Advisor.send, call. cbn. split; [apply Hsend|eauto].
    + cbn. split; [discriminate|auto].
  - cbn [Advisor.relay]. unfold bind.
    pose proof (relay_candidates_refused (Candidates resp) w Hsend) as H1. cbn zeta in H1.
    destruct (Advisor.relay_candidates (Candidates resp) w) as [v1 e1 w1].
    cbn [value events after] in *.
    destruct H1 as [(-> & ->)|(Hv & m & ->)].
    + pose proof (IH w1) as H2.
      destruct (Advisor.relay rest err w1) as [v2 e2 w2]. exact H2.
    + destruct v1 as [e|]; [|congruence]. cbn. split; [discriminate|eauto].
Qed.

(** A stream that refuses every chunk is offered one chunk at most: the
    call stops at the first refusal, returns an error and counts it. No
    second fragment and no terminal chunk is tried after a refused
    fragment. *)
Theorem StreamAdvice_refused (req : AdvisorRequest) (w : W) :
  (forall m w', fst (Send m w') <> None) ->
  value (Advisor.StreamAdvice req w) <> None
  /\ counted (events (Advisor.StreamAdvice req w)) = ["error"]
  /\ length (sent (events (Advisor.StreamAdvice req w))) <= 1.
Proof.
  intros Hsend.
  destruct (quiet_silent _ (lookupAll_events (Cities req) w)) as (_ & Hs & _).
  assert (H : value (Advisor.StreamAdvice req w) <> None
              /\ length (sent (events (Advisor.StreamAdvice req w))) <= 1).
  { pose proof (StreamAdvice_run req w) as H. cbn zeta in H.
    destruct (observations _) as [|line lines].
    - destruct H as (Hv & He). rewrite Hv, He, sent_app, Hs. cbn. split; [apply Hsend|lia].
    - destruct H as (Hv & He). rewrite Hv, He, streamAdviceGeneration_run.
      cbn [value events].
      match goal with
      | |- context [Advisor.relay ?rs ?e ?w'] =>
          destruct (relay_refused rs e w' Hsend) as (Hr & Her)
      end. cbn zeta in *.
      split.
      + destruct (value (Advisor.relay _ _ _)); [discriminate|congruence].
      + rewrite sent_app, Hs. cbn [app sent]. rewrite sent_app.
        destruct Her as [-> | (m & ->)]; cbn; lia. }
  destruct H as (Hv & Hl). repeat split; auto.
  destruct (StreamAdvice_metrics req w) as (Hc & _). rewrite Hc.
  destruct (value (Advisor.StreamAdvice req w)); [reflexivity|congruence].
Qed.

End StreamingRuns.

Section EndOfData.





End EndOfData.

Section GenerationFailure.

Context {W : Type} {svc : Collaborators W}.

Lemma relay_cut (responses : list GenerateContentResponse) (err : error) (w : W) :
  (forall m w', fst (Send m w') = None) ->
  end_of_data err = false ->
  value (Advisor.relay responses err w) = Some ("streaming failed: " ++ err)
  /\ events (Advisor.relay responses err w)
     = sends (map fragment_chunk (fragments responses)).
Proof.
  intros Hsend Heod.
  destruct (relay_run responses err w)
    as (done & todo & Hf & [w' _ Heod' _ _|Ht _ He Hv|cause _ Hv]).
  - congruence.
  - subst todo. rewrite app_nil_r in Hf. rewrite Hf. auto.
  - exfalso. revert w Hv. clear Hf. induction responses as [|resp rest IH]; intros w Hv.
    + cbn [Advisor.relay] in Hv. fold (end_of_data err) in Hv. rewrite Heod in Hv.
      cbn in Hv. discriminate Hv.
    + cbn [Advisor.relay] in Hv. unfold bind in Hv. cbn [value after] in Hv.
      rewrite (relay_candidates_unrefused _ _ Hsend) in Hv. apply (IH _ Hv).
Qed.

(** When the iterator fails with an error that is not the end of the
    data, on a stream that accepts every chunk, the fragments produced
    before the failure have all been handed to the stream, in order, and
    no terminal chunk follows them: the call returns "advice generation
    failed: streaming failed: ..." with the iterator's error, and counts
    an error. *)
Theorem StreamAdvice_generation_error (req : AdvisorRequest) (w : W) :
  (forall m w', fst (Send m w') = None) ->
  observations (value (lookupAll (Cities req) w)) <> [] ->
  end_of_data
    (stop (fst (GenerateContentStream "gemini-2.5-pro"
                  (Advisor.streamAdviceGeneration_prompt
                     (observations (value (lookupAll (Cities req) w))))
                  (after (lookupAll (Cities req) w))))) = false ->
  let it := fst (GenerateContentStream "gemini-2.5-pro"
                   (Advisor.streamAdviceGeneration_prompt
                      (observations (value (lookupAll (Cities req) w))))
                   (after (lookupAll (Cities req) w))) in
  let s := Advisor.StreamAdvice req w in
  value s = Some ("advice generation failed: streaming failed: " ++ stop it)
  /\ sent (events s) = map fragment_chunk (fragments (pending it))
  /\ counted (events s) = ["error"].
Proof.
  intros Hsend Hobs Heod. cbn zeta.
  pose proof (StreamAdvice_run req w) as H. cbn zeta in H.
  destruct (quiet_silent _ (lookupAll_events (Cities req) w)) as (_ & Hs & _).
  destruct (StreamAdvice_metrics req w) as (Hc & _). rewrite Hc.
  destruct (observations _) as [|line lines] eqn:E; [contradiction|].
  destruct H as (Hv & He). rewrite Hv, He, streamAdviceGeneration_run.
  cbn [value events].
  match goal with
  | |- context [Advisor.relay ?rs ?e ?w'] =>
      destruct (relay_cut rs e w' Hsend Heod) as (Hrv & Hre)
  end.
  rewrite Hrv, Hre. cbn [stream_status].
  rewrite sent_app, Hs. cbn [app sent]. rewrite sent_app, sent_sends. cbn [sent].
  rewrite app_nil_r. repeat split.
Qed.

End GenerationFailure.

(** ** Further properties: the second variant *)

#[local] Arguments AdvisorCopy.weatherInfo : simpl never.

Section SecondVariant.

Context {W : Type} {svc : Collaborators W}.

Lemma copy_loop_on_failure
    (cities : list CityData) (weatherData weatherData' : list string) (w : W) :
  first_failure (value (lookupAll cities w)) <> None ->
  AdvisorCopy.getAdvice_loop cities weatherData w
  = Advisor.getAdvice_loop cities weatherData' w.
Proof.
  unfold first_failure.
  revert weatherData weatherData' w.
  induction cities as [|city rest IH]; intros weatherData weatherData' w.
  - cbn. congruence.
  - cbn. unfold lookupCity, bind, AdvisorCopy.geocodeCity. cbn.
    destruct (Advisor.geocodeCity city w) as [[[lat lon]|err] evs w1]; cbn; [|reflexivity].
    destruct (fst (GetCurrentWeather _ w1)) as [resp|err]; cbn; [|reflexivity].
    intros H. rewrite (IH _ (weatherData' ++ [Advisor.weatherInfo city resp])%list _ H).
    reflexivity.
Qed.

Lemma copy_loop_resolved (cities : list CityData) (weatherData : list string) (w : W) :
  first_failure (value (lookupAll cities w)) = None ->
  AdvisorCopy.getAdvice_loop cities weatherData w
  = mkRun (Ok (weatherData ++ copy_observations (value (lookupAll cities w)))%list)
      (events (lookupAll cities w)) (after (lookupAll cities w)).
Proof.
  unfold first_failure.
  revert weatherData w. induction cities as [|city rest IH]; intros weatherData w.
  - cbn. rewrite app_nil_r. reflexivity.
  - cbn. unfold lookupCity, bind, AdvisorCopy.geocodeCity. cbn.
    destruct (Advisor.geocodeCity city w) as [[[lat lon]|err] evs w1]; cbn; [|discriminate].
    destruct (fst (GetCurrentWeather _ w1)) as [resp|err]; cbn; [|discriminate].
    intros H. rewrite (IH _ _ H). cbn.
    rewrite <- !app_assoc, !app_nil_r. reflexivity.
Qed.

(** On a request with a city that fails, the second variant of
    [getAdvice] runs exactly as the first: the same requests, the same
    error naming the first failed city, the same count, no call to the
    generator. *)
Theorem copy_getAdvice_on_failure (req : AdvisorRequest) (w : W) (f : Lookup) :
  first_failure (value (lookupAll (Cities req) w)) = Some f ->
  AdvisorCopy.getAdvice req w = Advisor.getAdvice req w
  /\ value (AdvisorCopy.getAdvice req w) = Err (failure_error f)
  /\ generator_calls (events (AdvisorCopy.getAdvice req w)) = []
  /\ counted (events (AdvisorCopy.getAdvice req w)) = ["error"].
Proof.
  intros Hf.
  assert (E : AdvisorCopy.getAdvice req w = Advisor.getAdvice req w).
  { unfold AdvisorCopy.getAdvice, Advisor.getAdvice, defer, bind.
    rewrite (copy_loop_on_failure (Cities req) [] [] w) by congruence. reflexivity. }
  rewrite E. split; [reflexivity|].
  pose proof (getAdvice_run req w) as H. cbn zeta in H. rewrite Hf in H.
  destruct H as (Hv & Hg & _ & Hc & _). auto.
Qed.

Lemma copy_observations_differ (ls : list Lookup) :
  Forall2 (fun line line' => line <> line') (copy_observations ls) (observations ls).
Proof.
  induction ls as [|l ls IH]; [constructor|].
  destruct l as [city resp|city cause|city cause]; cbn [copy_observations observations];
    [|exact IH..].
  constructor; [apply weatherInfo_variants_differ|exact IH].
Qed.

Lemma copy_getAdvice_run_resolved (req : AdvisorRequest) (w : W) :
  first_failure (value (lookupAll (Cities req) w)) = None ->
  let ls := lookupAll (Cities req) w in
  let u := AdvisorCopy.getAdvice req w in
  let prompt := Advisor.generateAdvice_prompt (copy_observations (value ls)) in
  let g := GenerateContent "gemini-2.5-flash" prompt (after ls) in
  value u =
    match fst g with
    | Err err => Err ("advice generation failed: gemini API failed: " ++ err)
    | Ok resp =>
        match Candidates resp with
        | [] => Err "advice generation failed: no response generated"
        | first :: _ =>
            Ok {| Advice := String.concat EmptyString (texts (Parts (Content first))) |}
        end
    end
  /\ events u = (events ls ++ [EvGenerateContent "gemini-2.5-flash" prompt;
                               EvInc (status_of (value u)); EvObserveDuration])%list.
Proof.
  intros Hnone. cbn zeta.
  unfold AdvisorCopy.getAdvice, AdvisorCopy.generateAdvice, defer, bind.
  rewrite (copy_loop_resolved _ _ _ Hnone). cbn [value events after app].
  rewrite generateAdvice_run. cbn [value events after].
  destruct (fst (GenerateContent _ _ _)) as [resp|err]; [destruct (Candidates resp)|];
    cbn; rewrite ?writeTexts_concat, ?append_empty_r, <- ?app_assoc; split; reflexivity.
Qed.

(** On a request whose cities all resolve, the second variant makes the
    lookups of the first, then one call to the generator with the unary
    template around its own summary lines, one per city, each of which
    differs from the first variant's line for that city; its result is
    read off the reply as in the first variant. *)
Theorem copy_getAdvice_all_resolved (req : AdvisorRequest) (w : W) :
  first_failure (value (lookupAll (Cities req) w)) = None ->
  let ls := lookupAll (Cities req) w in
  let u := AdvisorCopy.getAdvice req w in
  let prompt := Advisor.generateAdvice_prompt (copy_observations (value ls)) in
  let g := GenerateContent "gemini-2.5-flash" prompt (after ls) in
  Forall2 (fun line line' => line <> line')
    (copy_observations (value ls)) (observations (value ls))
  /\ length (copy_observations (value ls)) = length (Cities req)
  /\ value u =
       match fst g with
       | Err err => Err ("advice generation failed: gemini API failed: " ++ err)
       | Ok resp =>
           match Candidates resp with
           | [] => Err "advice generation failed: no response generated"
           | first :: _ =>
               Ok {| Advice := String.concat EmptyString (texts (Parts (Content first))) |}
           end
       end
  /\ events u = (events ls ++ [EvGenerateContent "gemini-2.5-flash" prompt;
                               EvInc (status_of (value u)); EvObserveDuration])%list.
Proof.
  intros Hnone. cbn zeta.
  split; [apply copy_observations_differ|].
  split.
  { rewrite (Forall2_length (copy_observations_differ (value (lookupAll (Cities req) w)))).
    rewrite (observations_length _ Hnone). apply lookupAll_length. }
  exact (copy_getAdvice_run_resolved req w Hnone).
Qed.

(** The second variant of [getAdvice], like the first, counts exactly
    one outcome in every call, an error when it returns one and a
    success otherwise, and records exactly one latency sample. *)
Theorem copy_one_outcome_one_sample (req : AdvisorRequest) (w : W) :
  let u := AdvisorCopy.getAdvice req w in
  counted (events u) = [status_of (value u)] /\ samples (events u) = 1.
Proof.
  cbn zeta.
  destruct (first_failure (value (lookupAll (Cities req) w))) as [f|] eqn:Hf.
  - assert (E : AdvisorCopy.getAdvice req w = Advisor.getAdvice req w).
    { unfold AdvisorCopy.getAdvice, Advisor.getAdvice, defer, bind.
      rewrite (copy_loop_on_failure (Cities req) [] [] w) by congruence. reflexivity. }
    rewrite E. apply getAdvice_metrics.
  - destruct (copy_getAdvice_run_resolved req w Hf) as (_ & He). cbn zeta in He.
    rewrite He.
    destruct (quiet_silent _ (lookupAll_events (Cities req) w)) as (_ & _ & Hc & Hs).
    rewrite counted_app, samples_app, Hc, Hs. split; reflexivity.
Qed.

End SecondVariant.

(** ** The further properties on the concrete worlds *)

Section FurtherRuns.

Lemma geocode_url_injective_witness :
  geocode_url {| Location := "New York" |} = geocode_url {| Location := "New York" |}
  /\ Location {| Location := "New York" |} = "New York".
Proof.
  split; [reflexivity|].
  exact (geocode_url_injective {| Location := "New York" |} {| Location := "New York" |}
           eq_refl).
Defined.

Lemma getAdvice_stops_at_failure_witness :
  Advisor.getAdvice (svc := Demo.replies)
    {| Cities := Cities (Demo.request ["Paris"; "Atlantis"])
                 ++ Cities (Demo.request ["Null"; "Gondor"]) |} 0
  = Advisor.getAdvice (svc := Demo.replies)
      {| Cities := Cities (Demo.request ["Paris"; "Atlantis"]) |} 0.
Proof.
  apply (getAdvice_stops_at_failure (svc := Demo.replies)).
  vm_compute. discriminate.
Defined.

Lemma getAdvice_all_resolved_witness :
  length (observations (value (lookupAll (svc := Demo.replies)
                                 (Cities (Demo.request ["Paris"; "Paris"])) 0))) = 2
  /\ value (Advisor.getAdvice (svc := Demo.replies) (Demo.request ["Paris"; "Paris"]) 0)
     = Ok {| Advice := "Wear a light jacket." |}.
Proof.
  destruct (getAdvice_all_resolved (svc := Demo.replies)
              (Demo.request ["Paris"; "Paris"]) 0 eq_refl) as (Hl & Hv & _).
  split; [exact Hl|exact Hv].
Defined.

Lemma getAdvice_empty_advice_witness :
  value (Advisor.getAdvice (svc := Outage.speechless) (Demo.request ["Paris"]) 0)
  = Ok {| Advice := EmptyString |}
  /\ counted (events (Advisor.getAdvice (svc := Outage.speechless)
                        (Demo.request ["Paris"]) 0)) = ["success"].
Proof.
  exact (getAdvice_empty_advice (svc := Outage.speechless) (Demo.request ["Paris"]) 0
           {| Candidates := [Demo.candidate [Blob "image/png" "89504e47"];
                             Demo.candidate [Text "Stay in."]] |}
           (Demo.candidate [Blob "image/png" "89504e47"])
           [Demo.candidate [Text "Stay in."]]
           eq_refl eq_refl eq_refl eq_refl).
Defined.

Lemma StreamAdvice_chunks_in_order_witness :
  exists done todo,
    fragments (pending Demo.piecewise) = (done ++ todo)%list
    /\ (sent (events (Advisor.StreamAdvice (svc := Outage.disconnected)
                        (Demo.request ["Paris"]) 0))
        = map fragment_chunk done
        \/ todo = [] /\ end_of_data (stop Demo.piecewise) = true
           /\ sent (events (Advisor.StreamAdvice (svc := Outage.disconnected)
                              (Demo.request ["Paris"]) 0))
              = (map fragment_chunk done ++ [terminal_chunk])%list).
Proof.
  refine (StreamAdvice_chunks_in_order (svc := Outage.disconnected)
            (Demo.request ["Paris"]) 0 _).
  vm_compute. discriminate.
Defined.

Lemma StreamAdvice_tolerates_city_failures_witness :
  value (Advisor.StreamAdvice (svc := Demo.replies)
           (Demo.request ["Atlantis"; "Paris"; "Null"]) 0) = None
  /\ counted (events (Advisor.StreamAdvice (svc := Demo.replies)
                        (Demo.request ["Atlantis"; "Paris"; "Null"]) 0)) = ["success"].
Proof.
  apply (StreamAdvice_tolerates_city_failures (svc := Demo.replies)).
  - intros m w'. reflexivity.
  - intros model prompt w'. reflexivity.
Defined.

Lemma StreamAdvice_refused_witness :
  value (Advisor.StreamAdvice (svc := Outage.disconnected) (Demo.request ["Paris"]) 0)
  <> None
  /\ counted (events (Advisor.StreamAdvice (svc := Outage.disconnected)
                        (Demo.request ["Paris"]) 0)) = ["error"]
  /\ length (sent (events (Advisor.StreamAdvice (svc := Outage.disconnected)
                             (Demo.request ["Paris"]) 0))) <= 1.
Proof.
  apply (StreamAdvice_refused (svc := Outage.disconnected)).
  intros m w'. cbn. discriminate.
Defined.

Lemma StreamAdvice_generation_error_witness :
  value (Advisor.StreamAdvice (svc := Outage.interrupted) (Demo.request ["Paris"]) 0)
  = Some "advice generation failed: streaming failed: rpc error: connection reset"
  /\ sent (events (Advisor.StreamAdvice (svc := Outage.interrupted)
                     (Demo.request ["Paris"]) 0))
     = [fragment_chunk "Sunny"; fragment_chunk " and"; fragment_chunk " mild.";
        fragment_chunk " Enjoy."]
  /\ counted (events (Advisor.StreamAdvice (svc := Outage.interrupted)
                        (Demo.request ["Paris"]) 0)) = ["error"].
Proof.
  refine (StreamAdvice_generation_error (svc := Outage.interrupted)
            (Demo.request ["Paris"]) 0 _ _ _).
  - intros m w'. reflexivity.
  - vm_compute. discriminate.
  - reflexivity.
Defined.


Lemma copy_getAdvice_on_failure_witness :
  AdvisorCopy.getAdvice (svc := Demo.replies) (Demo.request ["Paris"; "Atlantis"]) 0
  = Advisor.getAdvice (svc := Demo.replies) (Demo.request ["Paris"; "Atlantis"]) 0
  /\ value (AdvisorCopy.getAdvice (svc := Demo.replies)
              (Demo.request ["Paris"; "Atlantis"]) 0)
     = Err "geocoding failed for Atlantis: no results found for city: Atlantis".
Proof.
  destruct (copy_getAdvice_on_failure (svc := Demo.replies)
              (Demo.request ["Paris"; "Atlantis"]) 0
              (GeocodeFailed {| Location := "Atlantis" |}
                 "no results found for city: Atlantis") eq_refl) as (He & Hv & _).
  split; [exact He|exact Hv].
Defined.

Lemma copy_getAdvice_all_resolved_witness :
  value (AdvisorCopy.getAdvice (svc := Demo.replies) (Demo.request ["Paris"]) 0)
  = Ok {| Advice := "Wear a light jacket." |}.
Proof.
  destruct (copy_getAdvice_all_resolved (svc := Demo.replies)
              (Demo.request ["Paris"]) 0 eq_refl) as (_ & _ & Hv & _).
  exact Hv.
Defined.

End FurtherRuns.
